(** * The websocket driver of asciinema-player

    A shallow embedding of [src/driver/websocket.js] (the main revision) and of
    the older revision of the same file, and the properties of the driver's
    specification proved, or refuted, over it.

    The driver is a closure over a handful of mutable variables, run by
    callbacks of the browser: socket events and timers.  The closure's
    variables, the sockets and the timers are an explicit state; what the
    driver does to its collaborators (the callbacks [setState] and [reset],
    the logger, the Buffer) is a trace of calls, in order. *)

From Stdlib Require Import ZArith Lia Strings.Byte Ascii String.
From coqutil Require Import Byte Word.LittleEndianList.
From stdpp Require Import base tactics option list gmap pretty.

Set Warnings "-register-all".
Local Open Scope Z_scope.

(** ** JavaScript values *)

(** A JavaScript number is a double.  The driver computes with non-negative
    integers only; every other double is kept as the bits that denote it. *)
Inductive number : Type :=
  | Int (z : Z)            (* an integer, exactly representable *)
  | Infinity               (* positive infinity *)
  | Float32 (bits : Z)     (* the value of the binary32 with these 32 bits *)
  | Double (bits : Z).     (* any other double, by its 64 bits *)

(** Strings are sequences of UTF-16 code units. *)
Definition jsstring : Type := list N.

Definition str (s : string) : jsstring :=
  List.map N_of_ascii (list_ascii_of_string s).

(** The value [JSON.parse] returns; an object is its properties, in order, and
    reading a property finds the first of that name. *)
Inductive json : Type :=
  | JNull
  | JBool (b : bool)
  | JNum (n : number)
  | JStr (s : jsstring)
  | JArr (items : list json)
  | JObj (props : list (jsstring * json)).

(** A JavaScript value of the driver: [None] is [undefined]. *)
Definition value : Type := option json.

Definition jsstring_eqb (a b : jsstring) : bool := bool_decide (a = b).

(** ** The arithmetic of [exponentialDelay]

    [Math.pow(2, attempt)] and the product by 500 are exact as long as the
    result is below 2^1024, and positive infinity from there on: the
    operands are a power of two and 125 times a power of two. *)
Inductive xint : Type :=
  | Exact (z : Z)
  | Overflow.

Definition double_of (z : Z) : xint :=
  if z <? 2 ^ 1024 then Exact z else Overflow.

Definition Math_pow (base : Z) (exponent : nat) : xint :=
  double_of (base ^ Z.of_nat exponent).

Definition times (k : Z) (x : xint) : xint :=
  match x with
  | Exact z => double_of (k * z)
  | Overflow => Overflow
  end.

Definition Math_min (x : xint) (cap : Z) : number :=
  match x with
  | Exact z => Int (Z.min z cap)
  | Overflow => Int cap
  end.

(** [function exponentialDelay(attempt)] (both revisions, lines 5-7). *)
Definition exponentialDelay (attempt : nat) : number :=
  Math_min (times 500 (Math_pow 2 attempt)) 5000.

(** ** Bytes

    An [ArrayBuffer] is the list of its bytes; [byte.unsigned] is the number
    of a byte, [le_combine] the number of a sequence of bytes read with the
    least significant byte first. *)

(** [array.slice(from, to)]: both ends are clamped to the array. *)
Definition slice (from to : nat) (array : list byte) : list byte :=
  take (to - from)%nat (drop from array).

(** [arr[i] == k]: an index out of range reads [undefined], equal to no
    number. *)
Definition byte_is (arr : list byte) (i : nat) (k : Z) : bool :=
  match arr !! i with
  | Some b => byte.unsigned b =? k
  | None => false
  end.

(** ** The collaborators and the calls the driver makes to them *)

Inductive level : Type := Debug | Info | Warn | Error.

(** The texts handed to the logger, with the values of their holes. *)
Inductive message : Type :=
  | activating_asciicast_compatible_handler
  | activating_ALiS_v1_handler
  | text_compression_none
  | unsupported_compression_algorithm (compressionAlgo : value)
  | unsupported_ALiS_version (version : value)
  | activating_raw_text_handler
  | activating_binary_handler
  | unknown_frame_type (type : value)
  | stream_reset (cols rows time : value)
  | vt_reset (cols rows time : value)
  | stream_offline
  | opened
  | closed
  | unclean_close_reconnecting_in (delay : number).

(** The names [setState] is called with, and its one detail,
    [{ reason: 'ended' }]. *)
Inductive state_name : Type := loading | playing | offline | stopped.
Inductive detail : Type := reason_ended.

(** A call to a collaborator.  [feed] is only ever handed to [getBuffer]; the
    Buffer is an object of its own, known by the number [getBuffer] returned
    it under, and the two callbacks it is given are left out of the record
    of the call. *)
Inductive call : Type :=
  | logger (lvl : level) (msg : message)
  | setState (name : state_name) (d : option detail)
  | reset (cols rows init : value)
  | getBuffer (id : nat) (bufferTime : number) (baseStreamTime : value)
              (minFrameTime : value)
  | buf_stop (id : nat)
  | buf_pushEvent (id : nat) (e : json)
  | buf_pushText (id : nat) (text : jsstring).

(** Modelled from the spec: the classes [Clock] and [NullClock] of
    [../clock], which is not among the sources.  A Clock "holds a mutable
    virtual time", "set explicitly by reset/frame events and read on demand; it
    does not auto-advance"; "[NullClock] returns an undefined/absent time",
    and once the Clock is cleared to it "no further time is reported until the
    next reset": setting the time of a [NullClock] leaves it what it is.  What
    a Clock reads before its time was ever set is not said: [fresh] stands
    for it. *)
Inductive clock_time : Type :=
  | fresh
  | at_time (t : number).

(** Modelled from the spec: an object of one of the two classes of
    [../clock], "the Clock's absent-vs-present duality ([NullClock] vs active
    [Clock])". *)
Inductive clock_obj : Type :=
  | NullClock
  | Clock (time : clock_time).

(** Modelled from the spec: the method [setTime] of the two classes; a Clock
    holds the time it is set to, a [NullClock] reports no time whatever it is
    told. *)
Definition Clock_setTime (c : clock_obj) (t : number) : clock_obj :=
  match c with
  | NullClock => NullClock
  | Clock _ => Clock (at_time t)
  end.

(** Modelled from the spec: the method [getTime] of the two classes; [None]
    is the absent time. *)
Definition Clock_getTime (c : clock_obj) : option clock_time :=
  match c with
  | NullClock => None
  | Clock t => Some t
  end.

(** ** The browser: sockets and timers *)

(** What [socket.onmessage] is bound to; the last is the raw handler, which
    the older revision calls [handleBinaryMessage]. *)
Inductive handler : Type :=
  | detectProtocol_handler
  | handleJsonMessage_handler
  | handleStreamMessage_handler
  | handleRawTextMessage_handler.

Inductive ready_state : Type := CONNECTING | OPEN | CLOSING | CLOSED.

Inductive binary_type : Type := blob | arraybuffer.

(** A [WebSocket]; [onopen] and [onclose] are bound once, by [connect], and
    are not fields here. *)
Record WebSocket : Type := mkWebSocket {
  ws_url : jsstring;
  binaryType : binary_type;
  onmessage : option handler;
  readyState : ready_state
}.

(** The two functions given to [setTimeout]. *)
Inductive timer_callback : Type :=
  | reset_reconnectAttempt      (* () => { reconnectAttempt = 0; } *)
  | connect_callback.           (* connect *)

(** The data of a message event: a string, here by what [JSON.parse] makes of
    it ([None] when it throws), or an [ArrayBuffer]. *)
Inductive data : Type :=
  | text_data (parsed : option json)
  | binary_data (buffer : list byte).

Inductive exn : Type := TypeError | RangeError | SyntaxError.

(** ** The state of one driver *)

Record driver : Type := mkDriver {
  (* the arguments of [websocket] *)
  url : jsstring;
  bufferTime : number;
  reconnectDelay : nat -> number;
  minFrameTime : value;
  utfDecoder_decode : list byte -> jsstring;
  (* the variables of the closure *)
  socket : option nat;
  buf : option nat;
  clock : option clock_obj;
  reconnectAttempt : nat;
  successfulConnectionTimeout : option nat;
  stop : bool;
  (* the browser: every socket made so far, by the order they were made in; the
     pending timers, by their identifiers; how many timers were ever set *)
  sockets : list WebSocket;
  timers : gmap nat (timer_callback * number);
  timeouts : nat;
  (* how many Buffers [getBuffer] has made *)
  buffers : nat
}.

Definition with_socket (v : option nat) (d : driver) : driver :=
  mkDriver (url d) (bufferTime d) (reconnectDelay d) (minFrameTime d)
    (utfDecoder_decode d) v (buf d) (clock d) (reconnectAttempt d)
    (successfulConnectionTimeout d) (stop d) (sockets d) (timers d)
    (timeouts d) (buffers d).

Definition with_buf (v : option nat) (d : driver) : driver :=
  mkDriver (url d) (bufferTime d) (reconnectDelay d) (minFrameTime d)
    (utfDecoder_decode d) (socket d) v (clock d) (reconnectAttempt d)
    (successfulConnectionTimeout d) (stop d) (sockets d) (timers d)
    (timeouts d) (buffers d).

Definition with_clock (v : option clock_obj) (d : driver) : driver :=
  mkDriver (url d) (bufferTime d) (reconnectDelay d) (minFrameTime d)
    (utfDecoder_decode d) (socket d) (buf d) v (reconnectAttempt d)
    (successfulConnectionTimeout d) (stop d) (sockets d) (timers d)
    (timeouts d) (buffers d).

Definition with_reconnectAttempt (v : nat) (d : driver) : driver :=
  mkDriver (url d) (bufferTime d) (reconnectDelay d) (minFrameTime d)
    (utfDecoder_decode d) (socket d) (buf d) (clock d) v
    (successfulConnectionTimeout d) (stop d) (sockets d) (timers d)
    (timeouts d) (buffers d).

Definition with_successfulConnectionTimeout (v : option nat) (d : driver)
  : driver :=
  mkDriver (url d) (bufferTime d) (reconnectDelay d) (minFrameTime d)
    (utfDecoder_decode d) (socket d) (buf d) (clock d) (reconnectAttempt d)
    v (stop d) (sockets d) (timers d) (timeouts d) (buffers d).

Definition with_stop (v : bool) (d : driver) : driver :=
  mkDriver (url d) (bufferTime d) (reconnectDelay d) (minFrameTime d)
    (utfDecoder_decode d) (socket d) (buf d) (clock d) (reconnectAttempt d)
    (successfulConnectionTimeout d) v (sockets d) (timers d)
    (timeouts d) (buffers d).

Definition with_sockets (v : list WebSocket) (d : driver) : driver :=
  mkDriver (url d) (bufferTime d) (reconnectDelay d) (minFrameTime d)
    (utfDecoder_decode d) (socket d) (buf d) (clock d) (reconnectAttempt d)
    (successfulConnectionTimeout d) (stop d) v (timers d)
    (timeouts d) (buffers d).

Definition with_timers (v : gmap nat (timer_callback * number)) (n : nat)
    (d : driver) : driver :=
  mkDriver (url d) (bufferTime d) (reconnectDelay d) (minFrameTime d)
    (utfDecoder_decode d) (socket d) (buf d) (clock d) (reconnectAttempt d)
    (successfulConnectionTimeout d) (stop d) (sockets d) v n (buffers d).

Definition with_buffers (v : nat) (d : driver) : driver :=
  mkDriver (url d) (bufferTime d) (reconnectDelay d) (minFrameTime d)
    (utfDecoder_decode d) (socket d) (buf d) (clock d) (reconnectAttempt d)
    (successfulConnectionTimeout d) (stop d) (sockets d) (timers d)
    (timeouts d) v.

(** ** Running the driver's code

    A piece of the driver's code runs from a state; it ends normally or by
    an exception, in a new state, having made calls. *)
Inductive completion (A : Type) : Type :=
  | Normal (a : A)
  | Throw (e : exn).
Arguments Normal {A} a.
Arguments Throw {A} e.

Definition M (A : Type) : Type := driver -> completion A * driver * list call.

#[global] Instance M_ret : MRet M := fun A a d => (Normal a, d, []).

#[global] Instance M_bind : MBind M := fun A B f m d =>
  match m d with
  | (Normal a, d1, calls1) =>
      match f a d1 with
      | (r, d2, calls2) => (r, d2, calls1 ++ calls2)
      end
  | (Throw e, d1, calls1) => (Throw e, d1, calls1)
  end.

Definition throw {A : Type} (e : exn) : M A := fun d => (Throw e, d, []).
Definition read {A : Type} (var : driver -> A) : M A :=
  fun d => (Normal (var d), d, []).
Definition assign (set : driver -> driver) : M unit :=
  fun d => (Normal tt, set d, []).
Definition invoke (c : call) : M unit := fun d => (Normal tt, d, [c]).
Definition skip : M unit := mret tt.

(** The object of a variable that must hold one: a property of [undefined]
    cannot be read. *)
Definition object {A : Type} (var : driver -> option A) : M A :=
  o ← read var;
  match o with
  | Some x => mret x
  | None => throw TypeError
  end.

(** ** The browser's interface *)

(** [new WebSocket(url)] *)
Definition new_WebSocket (u : jsstring) : M nat :=
  all ← read sockets;
  assign (with_sockets (all ++ [mkWebSocket u blob None CONNECTING]));;
  mret (length all).

Definition update_socket (f : WebSocket -> WebSocket) (id : nat) : M unit :=
  all ← read sockets;
  match all !! id with
  | Some ws => assign (with_sockets (<[id := f ws]> all))
  | None => skip
  end.

Definition set_binaryType (t : binary_type) : nat -> M unit :=
  update_socket (fun ws =>
    mkWebSocket (ws_url ws) t (onmessage ws) (readyState ws)).

Definition set_onmessage (h : handler) : nat -> M unit :=
  update_socket (fun ws =>
    mkWebSocket (ws_url ws) (binaryType ws) (Some h) (readyState ws)).

Definition set_readyState (r : ready_state) : nat -> M unit :=
  update_socket (fun ws =>
    mkWebSocket (ws_url ws) (binaryType ws) (onmessage ws) r).

(** [socket.close()]: a socket that is connecting or open starts closing, one
    that is closing or closed stays as it is. *)
Definition WebSocket_close : nat -> M unit :=
  update_socket (fun ws =>
    mkWebSocket (ws_url ws) (binaryType ws) (onmessage ws)
      match readyState ws with
      | CONNECTING | OPEN => CLOSING
      | r => r
      end).

(** [setTimeout(callback, delay)] *)
Definition setTimeout (callback : timer_callback) (delay : number) : M nat :=
  pending ← read timers;
  id ← read timeouts;
  assign (with_timers (<[id := (callback, delay)]> pending) (S id));;
  mret id.

(** [clearTimeout(id)]; nothing happens for [undefined]. *)
Definition clearTimeout (id : option nat) : M unit :=
  match id with
  | Some i =>
      pending ← read timers;
      n ← read timeouts;
      assign (with_timers (delete i pending) n)
  | None => skip
  end.

(** [new DataView(buffer)] and [new Uint8Array(buffer)] take an
    [ArrayBuffer], not a string. *)
Definition ArrayBuffer_of (d : data) : M (list byte) :=
  match d with
  | binary_data buffer => mret buffer
  | text_data _ => throw TypeError
  end.

(** The [n] bytes of a view from [offset], when they are all there. *)
Definition bytes_at (offset n : nat) (buffer : list byte) : M (list byte) :=
  if decide (offset + n <= length buffer)%nat
  then mret (take n (drop offset buffer))
  else throw RangeError.

Definition endian (littleEndian : bool) (bs : list byte) : Z :=
  if littleEndian then le_combine bs else le_combine (rev bs).

Definition getUint8 (view : list byte) (offset : nat) : M Z :=
  bs ← bytes_at offset 1 view; mret (le_combine bs).

Definition getUint16 (view : list byte) (offset : nat) (littleEndian : bool)
  : M Z :=
  bs ← bytes_at offset 2 view; mret (endian littleEndian bs).

Definition getUint32 (view : list byte) (offset : nat) (littleEndian : bool)
  : M Z :=
  bs ← bytes_at offset 4 view; mret (endian littleEndian bs).

Definition getFloat32 (view : list byte) (offset : nat) (littleEndian : bool)
  : M number :=
  bs ← bytes_at offset 4 view; mret (Float32 (endian littleEndian bs)).

(** [new Uint8Array(buffer, byteOffset, length)] *)
Definition new_Uint8Array (buffer : list byte) (byteOffset len : nat)
  : M (list byte) :=
  bytes_at byteOffset len buffer.

(** ** The Buffer's interface *)

Definition new_buffer (baseStreamTime : value) : M nat :=
  id ← read buffers;
  bt ← read bufferTime;
  mft ← read minFrameTime;
  assign (with_buffers (S id));;
  invoke (getBuffer id bt baseStreamTime mft);;
  mret id.

Definition buf_pushEvent_call (e : json) : M unit :=
  b ← object buf; invoke (buf_pushEvent b e).

Definition buf_pushText_call (text : jsstring) : M unit :=
  b ← object buf; invoke (buf_pushText b text).

(** ** JSON values *)

Definition num (z : Z) : value := Some (JNum (Int z)).

Definition isArray (e : json) : bool :=
  match e with
  | JArr _ => true
  | _ => false
  end.

Fixpoint find_prop (name : jsstring) (props : list (jsstring * json))
  : value :=
  match props with
  | [] => None
  | (k, v) :: rest =>
      if jsstring_eqb k name then Some v else find_prop name rest
  end.

(** [e.name], for the names the driver reads: none of them is a property of
    an array, a string, a number or a boolean. *)
Definition prop (e : json) (name : string) : M value :=
  match e with
  | JNull => throw TypeError
  | JObj props => mret (find_prop (str name) props)
  | _ => mret None
  end.

(** [a ?? b] *)
Definition nullish (a b : value) : value :=
  match a with
  | None | Some JNull => b
  | _ => a
  end.

(** [v === 'text'] *)
Definition is_string (v : value) (text : string) : bool :=
  match v with
  | Some (JStr s) => jsstring_eqb s (str text)
  | _ => false
  end.

Definition is_defined (v : value) : bool :=
  match v with
  | None => false
  | Some _ => true
  end.

(** ** Regular expressions

    The two regular expressions of the driver are sequences of literal
    characters, of greedy repetitions of a character class, and of groups that
    capture such a repetition.  [match_here] is the backtracking matcher of the
    language on these: a repetition first takes all it can, and gives back one
    character at a time while the rest of the expression fails. *)
Inductive char_class : Type :=
  | digit        (* \d *)
  | any.         (* .  : every code unit but the four line terminators *)

Inductive item : Type :=
  | lit (c : N)
  | star (cls : char_class)                                (* cls* *)
  | group (lo : nat) (hi : option nat) (cls : char_class). (* (cls{lo,hi}) *)

Definition regex : Type := list item.

Definition in_class (cls : char_class) (c : N) : bool :=
  match cls with
  | digit => ((48 <=? c) && (c <=? 57))%N
  | any => negb ((c =? 10) || (c =? 13) || (c =? 8232) || (c =? 8233))%N
  end.

(** How many characters of [cls] the text starts with, [hi] at most. *)
Fixpoint span (cls : char_class) (hi : option nat) (s : jsstring) : nat :=
  match hi, s with
  | Some O, _ => O
  | _, [] => O
  | _, c :: rest =>
      if in_class cls c then S (span cls (pred <$> hi) rest) else O
  end.

(** The first of [n], [n - 1], ..., [lo] that [f] accepts. *)
Fixpoint longest_first {A : Type} (f : nat -> option A) (lo n : nat)
  : option A :=
  if decide (n < lo)%nat then None
  else match f n with
       | Some a => Some a
       | None =>
           match n with
           | O => None
           | S m => longest_first f lo m
           end
       end.

(** The captures of the match of [r] at the start of [s]. *)
Fixpoint match_here (r : regex) (s : jsstring) : option (list jsstring) :=
  match r with
  | [] => Some []
  | lit c :: r' =>
      match s with
      | c' :: s' => if (c =? c')%N then match_here r' s' else None
      | [] => None
      end
  | star cls :: r' =>
      longest_first (fun n => match_here r' (drop n s)) O (span cls None s)
  | group lo hi cls :: r' =>
      longest_first
        (fun n => cons (take n s) <$> match_here r' (drop n s))
        lo (span cls hi s)
  end.

(** [text.match(r)], for [r] without flags: the captures of the leftmost
    match, [None] for [null]. *)
Fixpoint String_match (r : regex) (text : jsstring)
  : option (list jsstring) :=
  match match_here r text with
  | Some captures => Some captures
  | None =>
      match text with
      | [] => None
      | _ :: rest => String_match r rest
      end
  end.

Definition lits (s : string) : regex := lit <$> str s.

Definition ESC : N := 27.
Definition quote : N := 34.

(** [/\x1b\[8;(\d+);(\d+)t/] *)
Definition resize_seq : regex :=
  [lit ESC] ++ lits "[8;" ++ [group 1 None digit] ++ lits ";"
  ++ [group 1 None digit] ++ lits "t".

(** [/\[.*COLUMNS="(\d{1,3})" LINES="(\d{1,3})".*\]/] *)
Definition script_start : regex :=
  lits "[" ++ [star any] ++ lits "COLUMNS=" ++
  [lit quote; group 1 (Some 3%nat) digit; lit quote] ++ lits " LINES=" ++
  [lit quote; group 1 (Some 3%nat) digit; lit quote] ++ [star any] ++ lits "]".

(** The number a string of decimal digits writes. *)
Definition decimal (digits : jsstring) : Z :=
  fold_left (fun acc c => 10 * acc + (Z.of_N c - 48)) digits 0.

(** The double nearest to a natural number.  Below 2^53 it is the number
    itself.  From there on a double keeps the 53 leading bits: the number is
    rounded to a multiple of [2 ^ shift], to the nearer one, and to the one
    with the even quotient when it is half way; what is rounded to 2^1024 is
    positive infinity. *)
Definition nearest_double (z : Z) : number :=
  let shift := Z.log2 z - 52 in
  if shift <=? 0 then Int z
  else
    let q := z / 2 ^ shift in
    let r := z mod 2 ^ shift in
    let half := 2 ^ (shift - 1) in
    let m := if (half <? r) || ((r =? half) && Z.odd q) then q + 1 else q in
    if m * 2 ^ shift <? 2 ^ 1024 then Int (m * 2 ^ shift) else Infinity.

(** [parseInt(digits, 10)] on a string of decimal digits: the double nearest
    to the number written. *)
Definition parseInt (digits : jsstring) : value :=
  Some (JNum (nearest_double (decimal digits))).

(** [clock.setTime(t)] *)
Definition clock_setTime (t : number) : M unit :=
  c ← object clock; assign (with_clock (Some (Clock_setTime c t))).

(** [arr[i]] as a value *)
Definition element (arr : list byte) (i : nat) : value :=
  (fun b => JNum (Int (byte.unsigned b))) <$> arr !! i.

(** [arr[0] == 0x41 && arr[1] == 0x4c && arr[2] == 0x69 && arr[3] == 0x53] *)
Definition is_ALiS (arr : list byte) : bool :=
  byte_is arr 0 0x41 && byte_is arr 1 0x4c && byte_is arr 2 0x69
  && byte_is arr 3 0x53.

(** ** The main revision: [src/driver/websocket.js] *)
Module Main.

(** [let clock = new NullClock()] and the other variables as [websocket]
    leaves them, for the arguments given and a browser that has made no
    socket and set no timer yet. *)
Definition websocket (url : jsstring) (bufferTime : number)
    (reconnectDelay : nat -> number) (minFrameTime : value)
    (decode : list byte -> jsstring) : driver :=
  {| url := url; bufferTime := bufferTime; reconnectDelay := reconnectDelay;
     minFrameTime := minFrameTime; utfDecoder_decode := decode;
     socket := None; buf := None; clock := Some NullClock;
     reconnectAttempt := O; successfulConnectionTimeout := None;
     stop := false;
     sockets := []; timers := ∅; timeouts := O; buffers := O |}.

Definition initBuffer (baseStreamTime : value) : M unit :=
  b ← read buf;
  match b with
  | Some id => invoke (buf_stop id)
  | None => skip
  end;;
  id ← new_buffer baseStreamTime;
  assign (with_buf (Some id)).

Definition handleResetMessage (cols rows time init : value) : M unit :=
  invoke (logger Debug (stream_reset cols rows time));;
  invoke (setState playing None);;
  initBuffer time;;
  invoke (reset cols rows init);;
  assign (with_clock (Some (Clock fresh)));;
  match time with
  | Some (JNum t) => clock_setTime t
  | _ => skip
  end.

Definition handleOfflineMessage : M unit :=
  invoke (logger Info stream_offline);;
  invoke (setState offline None);;
  assign (with_clock (Some NullClock)).

Definition sizeFromResizeSeq (text : jsstring) : option (value * value) :=
  match String_match resize_seq text with
  | Some [m1; m2] => Some (parseInt m2, parseInt m1)
  | _ => None
  end.

Definition sizeFromScriptStartMessage (text : jsstring)
  : option (value * value) :=
  match String_match script_start text with
  | Some [m1; m2] => Some (parseInt m1, parseInt m2)
  | _ => None
  end.

Definition handleJsonMessage (event : data) : M unit :=
  e ← match event with
      | text_data (Some e) => mret e
      | _ => throw SyntaxError
      end;
  if isArray e then buf_pushEvent_call e
  else
    cols ← prop e "cols";
    width ← prop e "width";
    if is_defined cols || is_defined width then
      rows ← prop e "rows";
      height ← prop e "height";
      time ← prop e "time";
      init ← prop e "init";
      handleResetMessage (nullish cols width) (nullish rows height) time
        (nullish init None)
    else
      status ← prop e "status";
      if is_string status "offline" then handleOfflineMessage else skip.

Definition handleStreamMessage (event : data) : M unit :=
  buffer ← ArrayBuffer_of event;
  let view := buffer in
  type ← getUint8 view 0;
  if type =? 0x01 then
    cols ← getUint16 view 1 true;
    rows ← getUint16 view 3 true;
    time ← getFloat32 view 5 true;
    len ← getUint32 view 9 true;
    init ← (if 0 <? len
            then bytes ← new_Uint8Array buffer 13 (Z.to_nat len);
                 decode ← read utfDecoder_decode;
                 mret (Some (JStr (decode bytes)))
            else mret None);
    handleResetMessage (num cols) (num rows) (Some (JNum time)) init
  else if type =? 0x6f then
    time ← getFloat32 view 1 true;
    len ← getUint32 view 5 true;
    bytes ← new_Uint8Array buffer 9 (Z.to_nat len);
    decode ← read utfDecoder_decode;
    buf_pushEvent_call
      (JArr [JNum time; JStr (str "o"); JStr (decode bytes)])
  else if type =? 0x72 then
    time ← getFloat32 view 1 true;
    cols ← getUint16 view 5 true;
    rows ← getUint16 view 7 true;
    buf_pushEvent_call
      (JArr [JNum time; JStr (str "r");
             JStr (str (pretty cols) ++ str "x" ++ str (pretty rows))])
  else if type =? 0x04 then handleOfflineMessage
  else invoke (logger Debug (unknown_frame_type (num type))).

Definition handleRawTextMessage (event : data) : M unit :=
  bytes ← ArrayBuffer_of event;
  decode ← read utfDecoder_decode;
  buf_pushText_call (decode bytes).

Definition detectProtocol (event : data) : M unit :=
  match event with
  | text_data _ =>
      invoke (logger Info activating_asciicast_compatible_handler);;
      s ← object socket;
      set_onmessage handleJsonMessage_handler s;;
      handleJsonMessage event
  | binary_data arr =>
      if is_ALiS arr then
        if byte_is arr 4 1 then
          invoke (logger Info activating_ALiS_v1_handler);;
          let compressionAlgo := element arr 5 in
          (if byte_is arr 5 0
           then invoke (logger Debug text_compression_none)
           else
             invoke (logger Error
                       (unsupported_compression_algorithm compressionAlgo));;
             s ← object socket;
             WebSocket_close s);;
          s ← object socket;
          set_onmessage handleStreamMessage_handler s
        else
          invoke (logger Warn (unsupported_ALiS_version (element arr 4)));;
          s ← object socket;
          WebSocket_close s
      else
        invoke (logger Info activating_raw_text_handler);;
        decode ← read utfDecoder_decode;
        let text := decode arr in
        let size :=
          match sizeFromResizeSeq text with
          | Some size => Some size
          | None => sizeFromScriptStartMessage text
          end in
        match size with
        | Some (cols, rows) => handleResetMessage cols rows (num 0) None
        | None => skip
        end;;
        s ← object socket;
        set_onmessage handleRawTextMessage_handler s;;
        handleRawTextMessage event
  end.

Definition connect : M unit :=
  u ← read url;
  s ← new_WebSocket u;
  assign (with_socket (Some s));;
  set_binaryType arraybuffer s;;
  set_onmessage detectProtocol_handler s.

Definition onopen : M unit :=
  invoke (logger Info opened);;
  initBuffer None;;
  t ← setTimeout reset_reconnectAttempt (Int 1000);
  assign (with_successfulConnectionTimeout (Some t)).

Definition onclose (code : Z) : M unit :=
  flag ← read stop;
  if flag || (code =? 1000) || (code =? 1005) then
    invoke (logger Info closed);;
    invoke (setState stopped (Some reason_ended))
  else
    t ← read successfulConnectionTimeout;
    clearTimeout t;;
    attempt ← read reconnectAttempt;
    assign (with_reconnectAttempt (S attempt));;
    f ← read reconnectDelay;
    let delay := f attempt in
    invoke (logger Info (unclean_close_reconnecting_in delay));;
    invoke (setState loading None);;
    _ ← setTimeout connect_callback delay;
    skip.

(** The three methods of the object [websocket] returns. *)
Definition play : M unit := connect.

Definition stop : M unit :=
  assign (with_stop true);;
  b ← read buf;
  match b with
  | Some id => invoke (buf_stop id)
  | None => skip
  end;;
  s ← read socket;
  match s with
  | Some id => WebSocket_close id
  | None => skip
  end.

Definition getCurrentTime : M (option clock_time) :=
  c ← object clock; mret (Clock_getTime c).

End Main.

(** ** The older revision of the same file *)
Module Old.

(** [let clock;] *)
Definition websocket (url : jsstring) (bufferTime : number)
    (reconnectDelay : nat -> number) (minFrameTime : value)
    (decode : list byte -> jsstring) : driver :=
  {| url := url; bufferTime := bufferTime; reconnectDelay := reconnectDelay;
     minFrameTime := minFrameTime; utfDecoder_decode := decode;
     socket := None; buf := None; clock := None;
     reconnectAttempt := O; successfulConnectionTimeout := None;
     stop := false;
     sockets := []; timers := ∅; timeouts := O; buffers := O |}.

Definition setTime (time : number) : M unit :=
  c ← read clock;
  match c with
  | Some c => assign (with_clock (Some (Clock_setTime c time)))
  | None => skip
  end.

Definition initBuffer (baseStreamTime : value) : M unit :=
  b ← read buf;
  match b with
  | Some id => invoke (buf_stop id)
  | None => skip
  end;;
  id ← new_buffer baseStreamTime;
  assign (with_buf (Some id)).

Definition handleResetMessage (cols rows time init : value) : M unit :=
  invoke (logger Debug (vt_reset cols rows time));;
  invoke (setState playing None);;
  initBuffer time;;
  invoke (reset cols rows init);;
  assign (with_clock (Some (Clock fresh)));;
  match time with
  | Some (JNum t) => clock_setTime t
  | _ => skip
  end.

Definition handleOfflineMessage : M unit :=
  invoke (logger Info stream_offline);;
  invoke (setState offline None);;
  assign (with_clock None).

Definition handleJsonMessage (event : data) : M unit :=
  e ← match event with
      | text_data (Some e) => mret e
      | _ => throw SyntaxError
      end;
  if isArray e then buf_pushEvent_call e
  else
    cols ← prop e "cols";
    width ← prop e "width";
    if is_defined cols || is_defined width then
      rows ← prop e "rows";
      height ← prop e "height";
      time ← prop e "time";
      init ← prop e "init";
      handleResetMessage (nullish cols width) (nullish rows height) time
        (nullish init None)
    else
      state ← prop e "state";
      if is_string state "offline" then handleOfflineMessage else skip.

(** The handler on a binary message: [buffer] is the [ArrayBuffer] of
    [event.data], and [array[0]] is [undefined] for an empty one. *)
Definition handleStreamMessage (buffer : list byte) : M unit :=
  let array := buffer in
  if byte_is array 0 0x01 then
    let view := buffer in
    cols ← getUint16 view 1 true;
    rows ← getUint16 view 3 true;
    time ← getFloat32 view 5 true;
    len ← getUint32 view 9 true;
    decode ← read utfDecoder_decode;
    let init :=
      if 0 <? len
      then Some (JStr (decode (slice 13 (13 + Z.to_nat len) array)))
      else None in
    handleResetMessage (num cols) (num rows) (Some (JNum time)) init
  else if byte_is array 0 0x6f then
    let view := buffer in
    time ← getFloat32 view 1 true;
    len ← getUint32 view 5 true;
    decode ← read utfDecoder_decode;
    let text := decode (slice 9 (9 + Z.to_nat len) array) in
    buf_pushEvent_call (JArr [JNum time; JStr (str "o"); JStr text])
  else if byte_is array 0 0x04 then handleOfflineMessage
  else invoke (logger Debug (unknown_frame_type (element array 0))).

Definition handleBinaryMessage (event : data) : M unit :=
  bytes ← ArrayBuffer_of event;
  decode ← read utfDecoder_decode;
  buf_pushText_call (decode bytes).

Definition detectProtocol (event : data) : M unit :=
  match event with
  | text_data _ =>
      invoke (logger Info activating_asciicast_compatible_handler);;
      s ← object socket;
      set_onmessage handleJsonMessage_handler s;;
      handleJsonMessage event
  | binary_data arr =>
      if is_ALiS arr then
        if byte_is arr 4 1 then
          invoke (logger Info activating_ALiS_v1_handler);;
          s ← object socket;
          set_onmessage handleStreamMessage_handler s
        else
          invoke (logger Warn (unsupported_ALiS_version (element arr 4)));;
          s ← object socket;
          WebSocket_close s
      else
        invoke (logger Info activating_binary_handler);;
        s ← object socket;
        set_onmessage handleRawTextMessage_handler s;;
        handleBinaryMessage event
  end.

Definition connect : M unit :=
  u ← read url;
  s ← new_WebSocket u;
  assign (with_socket (Some s));;
  set_binaryType arraybuffer s;;
  set_onmessage detectProtocol_handler s.

Definition onopen : M unit :=
  invoke (logger Info opened);;
  initBuffer None;;
  t ← setTimeout reset_reconnectAttempt (Int 1000);
  assign (with_successfulConnectionTimeout (Some t)).

Definition onclose (code : Z) : M unit :=
  flag ← read stop;
  if flag || (code =? 1000) || (code =? 1005) then
    invoke (logger Info closed);;
    invoke (setState stopped (Some reason_ended))
  else
    t ← read successfulConnectionTimeout;
    clearTimeout t;;
    attempt ← read reconnectAttempt;
    assign (with_reconnectAttempt (S attempt));;
    f ← read reconnectDelay;
    let delay := f attempt in
    invoke (logger Info (unclean_close_reconnecting_in delay));;
    invoke (setState loading None);;
    _ ← setTimeout connect_callback delay;
    skip.

Definition play : M unit := connect.

Definition stop : M unit :=
  assign (with_stop true);;
  b ← read buf;
  match b with
  | Some id => invoke (buf_stop id)
  | None => skip
  end;;
  s ← read socket;
  match s with
  | Some id => WebSocket_close id
  | None => skip
  end.

Definition getCurrentTime : M (option clock_time) :=
  c ← read clock;
  match c with
  | None => mret None
  | Some c => mret (Clock_getTime c)
  end.

End Old.

(** ** The browser running the main revision

    What the browser does to the driver: socket events, timers that fire, the
    Buffer reporting a time through the callback [initBuffer] gave it, and the
    calls of the player to [play] and [stop]. *)
Inductive event : Type :=
  | open_event (s : nat)
  | message_event (s : nat) (d : data)
  | close_event (s : nat) (code : Z)
  | timeout (id : nat)
  | setTime_event (t : number)
  | play_call
  | stop_call.

Definition handle (h : handler) (d : data) : M unit :=
  match h with
  | detectProtocol_handler => Main.detectProtocol d
  | handleJsonMessage_handler => Main.handleJsonMessage d
  | handleStreamMessage_handler => Main.handleStreamMessage d
  | handleRawTextMessage_handler => Main.handleRawTextMessage d
  end.

Definition fire (callback : timer_callback) : M unit :=
  match callback with
  | reset_reconnectAttempt => assign (with_reconnectAttempt O)
  | connect_callback => Main.connect
  end.

Definition is_state (r : ready_state) (ws : WebSocket) : bool :=
  match r, readyState ws with
  | CONNECTING, CONNECTING | OPEN, OPEN | CLOSING, CLOSING | CLOSED, CLOSED =>
      true
  | _, _ => false
  end.

(** A socket opens once, while it is connecting; it hands messages to
    [onmessage] only while it is open; it closes once. *)
Definition deliver (ev : event) : M unit :=
  match ev with
  | open_event s =>
      all ← read sockets;
      match all !! s with
      | Some ws =>
          if is_state CONNECTING ws
          then set_readyState OPEN s;; Main.onopen
          else skip
      | None => skip
      end
  | message_event s d =>
      all ← read sockets;
      match all !! s with
      | Some ws =>
          match is_state OPEN ws, onmessage ws with
          | true, Some h => handle h d
          | _, _ => skip
          end
      | None => skip
      end
  | close_event s code =>
      all ← read sockets;
      match all !! s with
      | Some ws =>
          if is_state CLOSED ws then skip
          else set_readyState CLOSED s;; Main.onclose code
      | None => skip
      end
  | timeout id =>
      pending ← read timers;
      match pending !! id with
      | Some (callback, _) => clearTimeout (Some id);; fire callback
      | None => skip
      end
  | setTime_event t => clock_setTime t
  | play_call => Main.play
  | stop_call => Main.stop
  end.

(** An execution: the events one after another; an exception ends the handler
    that threw it, and what it had done stays done. *)
Fixpoint run (evs : list event) (d : driver) : driver * list call :=
  match evs with
  | [] => (d, [])
  | ev :: rest =>
      match deliver ev d with
      | (_, d1, calls1) =>
          match run rest d1 with
          | (d2, calls2) => (d2, calls1 ++ calls2)
          end
      end
  end.

(** The calls made before a result, put in front of its own. *)
Definition after {A : Type} (calls : list call)
    (r : completion A * driver * list call)
  : completion A * driver * list call :=
  (r.1.1, r.1.2, calls ++ r.2).

(** ** What a reset and an offline message leave behind *)

(** The calls of the reset handling from state [d], in order. *)
Definition reset_calls (d : driver) (cols rows time init : value)
  : list call :=
  [logger Debug (stream_reset cols rows time); setState playing None]
  ++ match buf d with
     | Some b => [buf_stop b]
     | None => []
     end
  ++ [getBuffer (buffers d) (bufferTime d) time (minFrameTime d);
      reset cols rows init].

(** The time of the Clock after a reset: the reset's, when it is a number. *)
Definition reset_time (time : value) : clock_time :=
  match time with
  | Some (JNum t) => at_time t
  | _ => fresh
  end.

(** The state after the reset handling from state [d]. *)
Definition reset_state (d : driver) (time : value) : driver :=
  with_clock (Some (Clock (reset_time time)))
    (with_buf (Some (buffers d)) (with_buffers (S (buffers d)) d)).

Definition offline_calls : list call :=
  [logger Info stream_offline; setState offline None].

(** The state the observers of [setState] were last told, if any. *)
Definition last_state (calls : list call) : option state_name :=
  fold_left (fun acc c =>
               match c with
               | setState name _ => Some name
               | _ => acc
               end) calls None.

(** ** The frames of the ALiS protocol

    The frames as the table of the protocol lays them out: the tag, then the
    fields, each with its least significant byte first.  A float is given by its
    32 bits. *)
Definition u16 (z : Z) : list byte := le_split 2 z.
Definition u32 (z : Z) : list byte := le_split 4 z.
Definition f32 (bits : Z) : list byte := le_split 4 bits.

Definition reset_header (cols rows time initLen : Z) : list byte :=
  [Byte.x01] ++ u16 cols ++ u16 rows ++ f32 time ++ u32 initLen.

Definition reset_frame (cols rows time : Z) (init : list byte) : list byte :=
  reset_header cols rows time (Z.of_nat (length init)) ++ init.

Definition output_header (time textLen : Z) : list byte :=
  [Byte.x6f] ++ f32 time ++ u32 textLen.

Definition output_frame (time : Z) (text : list byte) : list byte :=
  output_header time (Z.of_nat (length text)) ++ text.

Definition resize_frame (time cols rows : Z) : list byte :=
  [Byte.x72] ++ f32 time ++ u16 cols ++ u16 rows.

Definition offline_frame : list byte := [Byte.x04].

(** ** A driver to try things on

    A decoder that is right on ASCII text, and the driver [websocket] makes
    with it and the default delays, before and after [play] and the opening of
    the socket. *)
Definition ascii_decode (bytes : list byte) : jsstring :=
  (fun b => Z.to_N (byte.unsigned b)) <$> bytes.

Definition new_driver : driver :=
  Main.websocket (str "ws://localhost/ws/s/1") (Double 0x3FB999999999999A)
    exponentialDelay None ascii_decode.

Definition open_driver : driver :=
  (run [play_call; open_event 0] new_driver).1.

(** The same driver once [stop] was called. *)
Definition stopped_driver : driver :=
  (run [play_call; open_event 0; stop_call] new_driver).1.

(** Three JSON messages: a reset to 80 columns and 24 rows at time 0, the
    end of the stream, an output event. *)
Definition reset_message : data :=
  text_data
    (Some (JObj [(str "cols", JNum (Int 80)); (str "rows", JNum (Int 24));
                 (str "time", JNum (Int 0))])).

Definition offline_message : data :=
  text_data (Some (JObj [(str "status", JStr (str "offline"))])).

Definition output_message : data :=
  text_data (Some (JArr [JNum (Int 1); JStr (str "o"); JStr (str "$ ")])).

(** ** Properties kept along an execution *)

(** From a state in [I], the code [m] ends in a state and with calls that [R]
    relates. *)
Definition guarantees (I : driver -> Prop) (R : driver -> list call -> Prop)
    {A : Type} (m : M A) : Prop :=
  forall d : driver, I d -> R (m d).1.2 (m d).2.

Definition is_reset (c : call) : bool :=
  match c with
  | reset _ _ _ => true
  | _ => false
  end.

(** No Clock is active. *)
Definition no_clock (d : driver) : Prop := clock d = Some NullClock.

(** No Clock is active, unless [reset] was called. *)
Definition no_clock_unless_reset (d : driver) (calls : list call) : Prop :=
  Forall (fun c => is_reset c = false) calls -> no_clock d.

Abbreviation keeps_no_clock := (guarantees no_clock no_clock_unless_reset).

(** A stream that was reset and then went offline. *)
Definition offline_driver : driver :=
  (run [message_event 0 reset_message; message_event 0 offline_message]
     open_driver).1.

(** ** The first frame of an ALiS stream *)

(** The magic, the version and the compression algorithm. *)
Definition ALiS_header (version compression : byte) : list byte :=
  [Byte.x41; Byte.x4c; Byte.x69; Byte.x53; version; compression].

(** Some call to the logger is at level [lvl]. *)
Definition logs_at (lvl : level) (calls : list call) : Prop :=
  exists msg : message, logger lvl msg ∈ calls.

(** ** After [stop] *)

(** The calls to the two callbacks the driver calls itself. *)
Definition is_callback (c : call) : bool :=
  match c with
  | setState _ _ | reset _ _ _ => true
  | _ => false
  end.

(** The calls that still happen once the driver is stopped: to the logger, to
    the Buffer's [stop], and [setState('stopped', { reason: 'ended' })]. *)
Definition after_stop (c : call) : bool :=
  match c with
  | logger _ _ | buf_stop _ | setState stopped (Some reason_ended) => true
  | _ => false
  end.

Definition closing (ws : WebSocket) : Prop :=
  readyState ws = CLOSING \/ readyState ws = CLOSED.

(** No timer is set to run [connect]. *)
Definition no_reconnect_pending (d : driver) : Prop :=
  map_Forall (fun _ t => t.1 = reset_reconnectAttempt) (timers d).

(** The sockets of earlier connections are closing or closed. *)
Definition one_connection (d : driver) : Prop :=
  forall s ws, sockets d !! s = Some ws -> socket d = Some s \/ closing ws.

(** The driver is stopped, every socket is closing or closed, no reconnect is
    pending. *)
Definition halted (d : driver) : Prop :=
  stop d = true
  /\ (forall s ws, sockets d !! s = Some ws -> closing ws)
  /\ no_reconnect_pending d.

Definition halted_and_quiet (d : driver) (calls : list call) : Prop :=
  halted d /\ Forall (fun c => after_stop c = true) calls.

(** ** The texts a terminal's size is sniffed from *)

Definition all_in (cls : char_class) (s : jsstring) : Prop :=
  Forall (fun c => in_class cls c = true) s.

Definition within (n : nat) (hi : option nat) : Prop :=
  match hi with
  | Some h => (n <= h)%nat
  | None => True
  end.

(** The language of a regular expression: [matches r w caps] when [w] is a
    text [r] matches as a whole, capturing [caps]. *)
Inductive matches : regex -> jsstring -> list jsstring -> Prop :=
  | matches_nil : matches [] [] []
  | matches_lit (c : N) (r : regex) (w : jsstring) (caps : list jsstring) :
      matches r w caps -> matches (lit c :: r) (c :: w) caps
  | matches_star (cls : char_class) (r : regex) (u w : jsstring)
        (caps : list jsstring) :
      all_in cls u -> matches r w caps -> matches (star cls :: r) (u ++ w) caps
  | matches_group (lo : nat) (hi : option nat) (cls : char_class) (r : regex)
        (u w : jsstring) (caps : list jsstring) :
      all_in cls u -> (lo <= length u)%nat -> within (length u) hi ->
      matches r w caps ->
      matches (group lo hi cls :: r) (u ++ w) (u :: caps).

(** One decimal digit or more. *)
Definition digits (s : jsstring) : Prop :=
  all_in digit s /\ (1 <= length s)%nat.

(** The resize escape sequence, [ESC [ 8 ; rows ; cols t]. *)
Definition resize_sequence (rows cols : jsstring) : jsstring :=
  [ESC] ++ str "[8;" ++ rows ++ str ";" ++ cols ++ str "t".

Definition is_resize_sequence (w rows cols : jsstring) : Prop :=
  digits rows /\ digits cols /\ w = resize_sequence rows cols.

(** The script-start marker: a bracket, and on the same line the columns
    and the lines, of three digits at most, and the closing bracket. *)
Definition script_start_marker (before cols rows after : jsstring)
  : jsstring :=
  str "[" ++ before ++ str "COLUMNS=" ++ [quote] ++ cols ++ [quote]
  ++ str " LINES=" ++ [quote] ++ rows ++ [quote] ++ after ++ str "]".

Definition is_script_start (w cols rows : jsstring) : Prop :=
  exists before after : jsstring,
    all_in any before /\ all_in any after
    /\ digits cols /\ (length cols <= 3)%nat
    /\ digits rows /\ (length rows <= 3)%nat
    /\ w = script_start_marker before cols rows after.

(** [w] is in the text, it is a [P], and no [P] starts before it. *)
Definition first_in (P : jsstring -> Prop) (text w : jsstring) : Prop :=
  exists pre post : jsstring,
    text = pre ++ w ++ post /\ P w
    /\ forall pre' w' post',
         text = pre' ++ w' ++ post' -> P w' -> (length pre <= length pre')%nat.

Definition nowhere_in (P : jsstring -> Prop) (text : jsstring) : Prop :=
  forall pre w post : jsstring, text = pre ++ w ++ post -> ~ P w.

Definition a_resize_sequence (w : jsstring) : Prop :=
  exists rows cols, is_resize_sequence w rows cols.

Definition a_script_start (w : jsstring) : Prop :=
  exists cols rows, is_script_start w cols rows.

(** The size sniffed from a text: that of a first resize sequence, or else
    that of a first script-start marker, or else none. *)
Definition sniffed (text : jsstring) (size : option (value * value)) : Prop :=
  match size with
  | Some (c, r) =>
      (exists w rows cols,
         first_in a_resize_sequence text w /\ is_resize_sequence w rows cols
         /\ c = parseInt cols /\ r = parseInt rows)
      \/ (nowhere_in a_resize_sequence text
          /\ exists w cols rows,
               first_in a_script_start text w /\ is_script_start w cols rows
               /\ c = parseInt cols /\ r = parseInt rows)
  | None =>
      nowhere_in a_resize_sequence text /\ nowhere_in a_script_start text
  end.

(** A first frame that carries a resize sequence for 24 rows and 80 columns. *)
Definition resize_message : list byte :=
  [Byte.x1b; Byte.x5b; Byte.x38; Byte.x3b; Byte.x32; Byte.x34; Byte.x3b;
   Byte.x38; Byte.x30; Byte.x74; Byte.x24; Byte.x20].

(** ** What a piece of code does to the state *)

(** Whatever the state [d] it runs from, the code [m] makes calls and ends
    in a state that [R] relates to [d]. *)
Definition relates (R : driver -> list call -> driver -> Prop) {A : Type}
    (m : M A) : Prop :=
  forall d : driver, R d (m d).2 (m d).1.2.

(** The connection is as it was: the sockets, the timers, the stop flag, the
    attempt count, and the arguments of the driver. *)
Definition same_connection (d : driver) (calls : list call) (d' : driver)
  : Prop :=
  socket d' = socket d /\ sockets d' = sockets d
  /\ timers d' = timers d /\ timeouts d' = timeouts d
  /\ successfulConnectionTimeout d' = successfulConnectionTimeout d
  /\ reconnectAttempt d' = reconnectAttempt d /\ stop d' = stop d
  /\ url d' = url d /\ bufferTime d' = bufferTime d
  /\ minFrameTime d' = minFrameTime d.

(** The Buffers that were made and not stopped, after [calls], when those of
    [live] were before. *)
Definition unstopped (live : gset nat) (calls : list call) : gset nat :=
  fold_left (fun live c =>
               match c with
               | getBuffer id _ _ _ => live ∪ {[ id ]}
               | buf_stop id => live ∖ {[ id ]}
               | _ => live
               end) calls live.

(** The Buffer of the driver, as a set. *)
Definition own_buffer (d : driver) : gset nat :=
  match buf d with
  | Some b => {[ b ]}
  | None => ∅
  end.

Definition one_live_buffer (d : driver) (calls : list call) (d' : driver)
  : Prop :=
  forall live : gset nat,
    live ⊆ own_buffer d -> unstopped live calls ⊆ own_buffer d'.

(** The four ways the driver calls [setState]. *)
Definition reported (c : call) : bool :=
  match c with
  | setState playing None | setState offline None | setState loading None
  | setState stopped (Some reason_ended) => true
  | setState _ _ => false
  | _ => true
  end.

Definition is_playing (c : call) : bool :=
  match c with
  | setState playing _ => true
  | _ => false
  end.

(** Every [setState] is one of the four, and [setState('playing')] was called
    as often as [reset]. *)
Definition reports_well (d : driver) (calls : list call) (d' : driver)
  : Prop :=
  Forall (fun c => reported c = true) calls
  /\ length (filter (fun c => is_playing c = true) calls)
     = length (filter (fun c => is_reset c = true) calls).

(** The socket [connect] makes. *)
Definition fresh_socket (d : driver) : WebSocket :=
  mkWebSocket (url d) arraybuffer (Some detectProtocol_handler) CONNECTING.

(** The state [connect] leaves: the new socket is the driver's. *)
Definition connected (d : driver) : driver :=
  with_sockets (sockets d ++ [fresh_socket d])
    (with_socket (Some (length (sockets d))) d).

(** A socket with its handler replaced. *)
Definition bound_to (h : handler) (ws : WebSocket) : WebSocket :=
  mkWebSocket (ws_url ws) (binaryType ws) (Some h) (readyState ws).

Definition is_unclean (code : Z) : bool :=
  negb ((code =? 1000) || (code =? 1005)).

(** The handler the first message of a stream selects. *)
Definition handler_for (event : data) : handler :=
  match event with
  | text_data _ => handleJsonMessage_handler
  | binary_data arr =>
      if is_ALiS arr then handleStreamMessage_handler
      else handleRawTextMessage_handler
  end.

(** A first message that is not an ALiS header of another version. *)
Definition supported (event : data) : bool :=
  match event with
  | text_data _ => true
  | binary_data arr => negb (is_ALiS arr) || byte_is arr 4 1
  end.

(** The socket a driver has after [play], before it opens. *)
Definition connecting_driver : driver := (run [play_call] new_driver).1.

(** [n] connections that fail one after another: each socket closes with
    [code] before it has stayed open for a second, and the timer set by the
    close handler runs.  The first socket is [s]; [next] and [t] are the
    socket and the timer the browser makes next. *)
Fixpoint failing (n s next t : nat) (code : Z) : list event :=
  match n with
  | O => []
  | S n =>
      close_event s code :: timeout t :: failing n next (S next) (S t) code
  end.

(** What is called on [n] failures in a row from the attempt count
    [attempt]. *)
Fixpoint retries (delay : nat -> number) (attempt n : nat) : list call :=
  match n with
  | O => []
  | S n =>
      logger Info (unclean_close_reconnecting_in (delay attempt))
      :: setState loading None :: retries delay (S attempt) n
  end.

(** The JSON messages that say what the frames of an ALiS stream say. *)
Definition json_reset (cols rows time : Z) (init : option jsstring) : data :=
  text_data
    (Some (JObj ([(str "cols", JNum (Int cols)); (str "rows", JNum (Int rows));
                  (str "time", JNum (Float32 time))]
                 ++ match init with
                    | Some text => [(str "init", JStr text)]
                    | None => []
                    end))).

Definition json_event (time : Z) (code : string) (text : jsstring) : data :=
  text_data (Some (JArr [JNum (Float32 time); JStr (str code); JStr text])).

(** The open driver once its stream has begun, as JSON messages and as raw
    text. *)
Definition json_driver : driver :=
  (run [message_event 0 reset_message] open_driver).1.

Definition raw_driver : driver :=
  (run [message_event 0 (binary_data resize_message)] open_driver).1.

(** The sockets of the drivers above. *)
Definition socket_of (h : handler) (r : ready_state) : WebSocket :=
  mkWebSocket (str "ws://localhost/ws/s/1") arraybuffer (Some h) r.

(** A variable that holds an object keeps holding one. *)
Definition stays_defined {A : Type} (var : driver -> option A) (d : driver)
    (calls : list call) (d' : driver) : Prop :=
  is_Some (var d) -> is_Some (var d').

(** No socket is opened: a socket open afterwards was open before. *)
Definition none_opened (d : driver) (calls : list call) (d' : driver) : Prop :=
  forall (s : nat) (ws' : WebSocket),
    sockets d' !! s = Some ws' -> readyState ws' = OPEN ->
    exists ws : WebSocket, sockets d !! s = Some ws /\ readyState ws = OPEN.

(** While a socket is open there is a Buffer. *)
Definition buffer_ready (d : driver) : Prop :=
  forall (s : nat) (ws : WebSocket),
    sockets d !! s = Some ws -> readyState ws = OPEN -> is_Some (buf d).

(** The unit in the last place of the doubles around [z], from 2^53 on. *)
Definition ulp (z : Z) : Z := 2 ^ (Z.log2 z - 52).

(** A first frame with a resize sequence for 9007199254740993 rows, one more
    than 2^53, and 80 columns. *)
Definition large_resize_message : list byte :=
  [Byte.x1b; Byte.x5b; Byte.x38; Byte.x3b;
   Byte.x39; Byte.x30; Byte.x30; Byte.x37; Byte.x31; Byte.x39; Byte.x39;
   Byte.x32; Byte.x35; Byte.x34; Byte.x37; Byte.x34; Byte.x30; Byte.x39;
   Byte.x39; Byte.x33;
   Byte.x3b; Byte.x38; Byte.x30; Byte.x74].

(** ** Messages a handler cannot handle *)









(** * Properties *)

(** ** Running the code step by step *)

Section Steps.
Context {A B : Type}.
Implicit Types (k : A -> M B) (d : driver).

Lemma bind_ret (a : A) k d : (mret a ≫= k) d = k a d.
Proof.
  unfold mbind, M_bind, mret, M_ret. by destruct (k a d) as [[? ?] ?].
Qed.

Lemma bind_throw (e : exn) k d : (throw e ≫= k) d = (Throw e, d, []).
Proof. done. Qed.

Lemma bind_read (var : driver -> A) k d : (read var ≫= k) d = k (var d) d.
Proof.
  unfold mbind, M_bind, read. by destruct (k (var d) d) as [[? ?] ?].
Qed.

Lemma bind_assoc {C : Type} (m : M C) (f : C -> M A) k d :
  ((m ≫= f) ≫= k) d = (m ≫= fun c => f c ≫= k) d.
Proof.
  unfold mbind, M_bind. destruct (m d) as [[[c | e] d1] calls1]; [| done].
  destruct (f c d1) as [[[a | e] d2] calls2]; [| done].
  destruct (k a d2) as [[r d3] calls3]. by rewrite app_assoc.
Qed.
End Steps.

Section UnitSteps.
Context {B : Type}.
Implicit Types (k : unit -> M B) (d : driver).

Lemma bind_assign (set : driver -> driver) k d :
  (assign set ≫= k) d = k tt (set d).
Proof.
  unfold mbind, M_bind, assign. by destruct (k tt (set d)) as [[? ?] ?].
Qed.

Lemma bind_invoke (c : call) k d : (invoke c ≫= k) d = after [c] (k tt d).
Proof.
  unfold mbind, M_bind, invoke, after. by destruct (k tt d) as [[? ?] ?].
Qed.

Lemma bind_skip k d : (skip ≫= k) d = k tt d.
Proof. apply bind_ret. Qed.
End UnitSteps.

Lemma after_after {A : Type} (c1 c2 : list call)
    (r : completion A * driver * list call) :
  after c1 (after c2 r) = after (c1 ++ c2) r.
Proof. unfold after. cbn. by rewrite app_assoc. Qed.

Lemma after_result {A : Type} (calls calls' : list call) (r : completion A)
    (d : driver) :
  after calls (r, d, calls') = (r, d, calls ++ calls').
Proof. done. Qed.

Lemma run_skip (d : driver) : skip d = (Normal tt, d, []).
Proof. done. Qed.

Lemma run_ret {A : Type} (a : A) (d : driver) :
  mret (M := M) a d = (Normal a, d, []).
Proof. done. Qed.

Lemma run_invoke (c : call) (d : driver) : invoke c d = (Normal tt, d, [c]).
Proof. done. Qed.

Lemma run_assign (set : driver -> driver) (d : driver) :
  assign set d = (Normal tt, set d, []).
Proof. done. Qed.

Lemma run_throw {A : Type} (e : exn) (d : driver) :
  throw (A := A) e d = (Throw e, d, []).
Proof. done. Qed.

(** One pass over a goal about running code: the binds of the primitives are
    resolved, the fields of updated states are read, the calls collected. *)
Ltac step :=
  repeat first
    [ rewrite bind_assoc | rewrite bind_ret | rewrite bind_read
    | rewrite bind_assign | rewrite bind_invoke | rewrite bind_skip
    | rewrite bind_throw | rewrite run_skip | rewrite run_ret
    | rewrite run_invoke | rewrite run_assign | rewrite run_throw
    | rewrite after_after | rewrite after_result
    | progress cbn [with_socket with_buf with_clock with_reconnectAttempt
                    with_successfulConnectionTimeout with_stop with_sockets
                    with_timers with_buffers
                    url bufferTime reconnectDelay minFrameTime
                    utfDecoder_decode socket buf clock reconnectAttempt
                    successfulConnectionTimeout stop sockets timers timeouts
                    buffers app fst snd] ].

(** ** The reconnect delay *)

Lemma double_of_small (z : Z) : z < 2 ^ 1024 -> double_of z = Exact z.
Proof.
  intros H. unfold double_of. destruct (Z.ltb_spec z (2 ^ 1024)); [done | lia].
Qed.

Lemma double_of_large (z : Z) : 2 ^ 1024 <= z -> double_of z = Overflow.
Proof.
  intros H. unfold double_of. destruct (Z.ltb_spec z (2 ^ 1024)); [lia | done].
Qed.

(** The function computes the exact minimum, also where the doubles overflow. *)
Lemma exponentialDelay_min (attempt : nat) :
  exponentialDelay attempt = Int (Z.min (500 * 2 ^ Z.of_nat attempt) 5000).
Proof.
  unfold exponentialDelay, Math_pow.
  set (n := Z.of_nat attempt).
  assert (Hn : 0 <= n) by lia.
  assert (Hcap : 2 ^ 4 <= 2 ^ n -> Z.min (500 * 2 ^ n) 5000 = 5000) by lia.
  destruct (Z.lt_ge_cases n 1024) as [Hlt | Hge].
  - rewrite double_of_small by (apply Z.pow_lt_mono_r; lia). cbn [times].
    destruct (Z.lt_ge_cases (500 * 2 ^ n) (2 ^ 1024)) as [Hs | Hl].
    + by rewrite double_of_small.
    + rewrite double_of_large by done. cbn [Math_min].
      rewrite Hcap; [done |].
      destruct (Z.lt_ge_cases n 4); [| apply Z.pow_le_mono_r; lia].
      assert (2 ^ n < 2 ^ 4) by (apply Z.pow_lt_mono_r; lia).
      assert (2 ^ 13 <= 2 ^ 1024) by (apply Z.pow_le_mono_r; lia).
      lia.
  - rewrite double_of_large by (apply Z.pow_le_mono_r; lia).
    cbn [times Math_min].
    rewrite Hcap; [done | apply Z.pow_le_mono_r; lia].
Qed.

(** C6.  For every attempt the default delay is the minimum of 500 * 2^attempt
    and 5000; below attempt 4 the next delay is strictly larger, from attempt
    4 on the delay is the cap 5000 and stays there; the first six delays are
    500, 1000, 2000, 4000, 5000, 5000. *)
Theorem exponentialDelay_schedule (attempt : nat) :
  let d := Z.min (500 * 2 ^ Z.of_nat attempt) 5000 in
  let d' := Z.min (500 * 2 ^ Z.of_nat (S attempt)) 5000 in
  exponentialDelay attempt = Int d
  /\ exponentialDelay (S attempt) = Int d'
  /\ (if decide (attempt < 4)%nat then d < d' else d = 5000 /\ d' = 5000)
  /\ exponentialDelay <$> seq 0 6
     = [Int 500; Int 1000; Int 2000; Int 4000; Int 5000; Int 5000].
Proof.
  cbn zeta. rewrite !exponentialDelay_min.
  split_and!; [done | done | idtac | done].
  case_decide as Hlt.
  - assert (Hc : (attempt = 0 \/ attempt = 1 \/ attempt = 2 \/ attempt = 3)%nat)
      by lia.
    destruct Hc as [-> | [-> | [-> | ->]]]; done.
  - assert (2 ^ 4 <= 2 ^ Z.of_nat attempt) by (apply Z.pow_le_mono_r; lia).
    assert (2 ^ 4 <= 2 ^ Z.of_nat (S attempt)) by (apply Z.pow_le_mono_r; lia).
    lia.
Qed.

(** ** The close handler *)

(** C2.  The close handler of both revisions is the same code.  When the
    stop flag is set or the code is 1000 or 1005, it calls
    [setState('stopped', { reason: 'ended' })] and leaves the state as it
    was: no timer is set.  Otherwise the stability timer is cleared, the delay
    is [reconnectDelay] at the attempt count as it was, the count is one
    more, [setState('loading')] is called and [connect] is set to run after
    that delay; nothing else changes. *)
Theorem onclose_stopped_or_reconnect (d : driver) (code : Z) :
  Old.onclose code d = Main.onclose code d
  /\ if stop d || (code =? 1000) || (code =? 1005)
     then Main.onclose code d
          = (Normal tt, d,
             [logger Info closed; setState stopped (Some reason_ended)])
     else
       let delay := reconnectDelay d (reconnectAttempt d) in
       let cleared :=
         match successfulConnectionTimeout d with
         | Some t => delete t (timers d)
         | None => timers d
         end in
       exists d' : driver,
         Main.onclose code d
         = (Normal tt, d',
            [logger Info (unclean_close_reconnecting_in delay);
             setState loading None])
         /\ reconnectAttempt d' = S (reconnectAttempt d)
         /\ timers d' = <[timeouts d := (connect_callback, delay)]> cleared
         /\ timeouts d' = S (timeouts d)
         /\ successfulConnectionTimeout d' = successfulConnectionTimeout d
         /\ stop d' = stop d /\ socket d' = socket d /\ sockets d' = sockets d
         /\ buf d' = buf d /\ buffers d' = buffers d /\ clock d' = clock d.
Proof.
  split; [done |].
  unfold Main.onclose. step.
  destruct (stop d || (code =? 1000) || (code =? 1005)); [by step |].
  cbn zeta. step. unfold clearTimeout, setTimeout.
  destruct (successfulConnectionTimeout d) as [t |] eqn:Ht;
    step; eexists; (split; [reflexivity |]); by rewrite ?Ht.
Qed.

(** The scenario of the specification: an unclean close with code 1006 at
    attempt 0 enters [loading] and sets the reconnect to 500. *)
Lemma unclean_close_at_attempt_0 :
  (run [close_event 0 1006] open_driver).2
  = [logger Info (unclean_close_reconnecting_in (Int 500));
     setState loading None]
  /\ timers (run [close_event 0 1006] open_driver).1
     = {[ 1%nat := (connect_callback, Int 500) ]}.
Proof. split; by vm_compute. Qed.

(** ** Reset and offline handling *)

Lemma handleResetMessage_run (d : driver) (cols rows time init : value) :
  Main.handleResetMessage cols rows time init d
  = (Normal tt, reset_state d time, reset_calls d cols rows time init).
Proof.
  unfold Main.handleResetMessage, Main.initBuffer, new_buffer, reset_calls,
    reset_state, reset_time.
  step. destruct (buf d) as [b |]; step.
  all: destruct time as [[| | t | | |] |]; step.
  all: unfold clock_setTime, object; by step.
Qed.

Lemma handleOfflineMessage_run (d : driver) :
  Main.handleOfflineMessage d
  = (Normal tt, with_clock (Some NullClock) d, offline_calls).
Proof. unfold Main.handleOfflineMessage. by step. Qed.

Lemma getCurrentTime_run (d : driver) :
  Main.getCurrentTime d
  = match clock d with
    | Some c => (Normal (Clock_getTime c), d, [])
    | None => (Throw TypeError, d, [])
    end.
Proof.
  unfold Main.getCurrentTime, object. step. by destruct (clock d); step.
Qed.


(** ** The handler of JSON messages *)


(** ** The handler of ALiS frames *)

Lemma bind_bytes_at {B : Type} (offset n : nat) (buffer : list byte)
    (k : list byte -> M B) (d : driver) :
  (bytes_at offset n buffer ≫= k) d
  = if decide (offset + n <= length buffer)%nat
    then k (take n (drop offset buffer)) d
    else (Throw RangeError, d, []).
Proof. unfold bytes_at. case_decide; by step. Qed.

Lemma le_split_2 (z : Z) :
  le_split 2 z = [byte.of_Z z; byte.of_Z (Z.shiftr z 8)].
Proof. done. Qed.

Lemma le_split_4 (z : Z) :
  le_split 4 z
  = [byte.of_Z z; byte.of_Z (Z.shiftr z 8);
     byte.of_Z (Z.shiftr (Z.shiftr z 8) 8);
     byte.of_Z (Z.shiftr (Z.shiftr (Z.shiftr z 8) 8) 8)].
Proof. done. Qed.

Lemma le_combine_2 (z : Z) :
  0 <= z < 2 ^ 16 -> le_combine [byte.of_Z z; byte.of_Z (Z.shiftr z 8)] = z.
Proof.
  intros H. rewrite <- le_split_2, le_combine_split. by apply Z.mod_small.
Qed.

Lemma le_combine_4 (z : Z) :
  0 <= z < 2 ^ 32 ->
  le_combine [byte.of_Z z; byte.of_Z (Z.shiftr z 8);
              byte.of_Z (Z.shiftr (Z.shiftr z 8) 8);
              byte.of_Z (Z.shiftr (Z.shiftr (Z.shiftr z 8) 8) 8)] = z.
Proof.
  intros H. rewrite <- le_split_4, le_combine_split. by apply Z.mod_small.
Qed.

Lemma buf_pushEvent_call_run (e : json) (d : driver) :
  buf_pushEvent_call e d
  = match buf d with
    | Some b => (Normal tt, d, [buf_pushEvent b e])
    | None => (Throw TypeError, d, [])
    end.
Proof. unfold buf_pushEvent_call, object. step. by destruct (buf d); step. Qed.

(** The frame, byte by byte. *)
Ltac frame :=
  unfold reset_frame, output_frame, reset_header, output_header, resize_frame,
    offline_frame, u16, u32, f32;
  rewrite ?le_split_2, ?le_split_4; cbn [app].

(** The reads of the fields that are within the frame. *)
Ltac fields :=
  repeat (rewrite ?bind_assoc; rewrite bind_bytes_at;
          rewrite decide_True by (cbn [length]; lia);
          cbn [take drop endian]; step).

Ltac stream_handler :=
  unfold Main.handleStreamMessage, ArrayBuffer_of, getUint8, getUint16,
    getUint32, getFloat32, new_Uint8Array;
  step; frame; fields; rewrite ?le_combine_1.

(** C4.  The handler on the frames of the table, whatever follows them in the
    message: a reset frame is the reset handling with the columns, rows and
    time of the frame and, as initial text, the decoded bytes, or nothing
    when there are none; an output frame and a resize frame are pushed to the
    Buffer as the events [[time, "o", text]] and [[time, "r", "<cols>x<rows>"]];
    a frame of tag 4 is the offline handling; a frame of any other tag is
    only logged, at debug level. *)
Theorem handleStreamMessage_decodes (d : driver) (cols rows time : Z)
    (text rest : list byte) (tag : byte) :
  0 <= cols < 2 ^ 16 -> 0 <= rows < 2 ^ 16 -> 0 <= time < 2 ^ 32 ->
  Z.of_nat (length text) < 2 ^ 32 ->
  let push e :=
    match buf d with
    | Some b => (Normal tt, d, [buf_pushEvent b e])
    | None => (Throw TypeError, d, [])
    end in
  Main.handleStreamMessage
    (binary_data (reset_frame cols rows time text ++ rest)) d
  = (Normal tt, reset_state d (Some (JNum (Float32 time))),
     reset_calls d (num cols) (num rows) (Some (JNum (Float32 time)))
       match text with
       | [] => None
       | _ => Some (JStr (utfDecoder_decode d text))
       end)
  /\ Main.handleStreamMessage (binary_data (output_frame time text ++ rest)) d
     = push (JArr [JNum (Float32 time); JStr (str "o");
                   JStr (utfDecoder_decode d text)])
  /\ Main.handleStreamMessage
       (binary_data (resize_frame time cols rows ++ rest)) d
     = push (JArr [JNum (Float32 time); JStr (str "r");
                   JStr (str (pretty cols) ++ str "x" ++ str (pretty rows))])
  /\ Main.handleStreamMessage (binary_data (offline_frame ++ rest)) d
     = (Normal tt, with_clock (Some NullClock) d, offline_calls)
  /\ (if decide (byte.unsigned tag ∈ [0x01; 0x6f; 0x72; 0x04]) then True
      else Main.handleStreamMessage (binary_data (tag :: rest)) d
           = (Normal tt, d,
              [logger Debug (unknown_frame_type (num (byte.unsigned tag)))])).
Proof.
  intros Hcols Hrows Htime Hlen push.
  assert (Htake :
    take (Z.to_nat (Z.of_nat (length text))) (text ++ rest) = text)
    by (rewrite Nat2Z.id; apply take_app_length).
  split_and!.
  - stream_handler. change (byte.unsigned Byte.x01 =? 1) with true. cbv iota.
    fields. rewrite !le_combine_2, !le_combine_4 by lia.
    destruct (Z.ltb_spec 0 (Z.of_nat (length text))) as [Hpos | Hzero].
    + rewrite bind_assoc, bind_bytes_at.
      rewrite decide_True by (cbn [length]; rewrite length_app; lia).
      cbn [drop]. rewrite drop_0, Htake. step.
      destruct text; [cbn in Hpos; lia | apply handleResetMessage_run].
    + destruct text; [| cbn [length] in Hzero; lia].
      step. apply handleResetMessage_run.
  - stream_handler. change (byte.unsigned Byte.x6f =? 1) with false.
    change (byte.unsigned Byte.x6f =? 111) with true. cbv iota.
    fields. rewrite !le_combine_4 by lia.
    rewrite bind_bytes_at.
    rewrite decide_True by (cbn [length]; rewrite length_app; lia).
    cbn [drop]. rewrite drop_0, Htake. step. apply buf_pushEvent_call_run.
  - stream_handler. change (byte.unsigned Byte.x72 =? 1) with false.
    change (byte.unsigned Byte.x72 =? 111) with false.
    change (byte.unsigned Byte.x72 =? 114) with true. cbv iota.
    fields. rewrite !le_combine_2, !le_combine_4 by lia.
    apply buf_pushEvent_call_run.
  - stream_handler. change (byte.unsigned Byte.x04 =? 1) with false.
    change (byte.unsigned Byte.x04 =? 111) with false.
    change (byte.unsigned Byte.x04 =? 114) with false.
    change (byte.unsigned Byte.x04 =? 4) with true. cbv iota.
    apply handleOfflineMessage_run.
  - case_decide as Htag; [done |].
    rewrite !elem_of_cons, elem_of_nil in Htag.
    stream_handler.
    repeat match goal with
           | |- context [byte.unsigned tag =? ?k] =>
               destruct (Z.eqb_spec (byte.unsigned tag) k); [tauto |]
           end.
    by step.
Qed.

(** The theorem at a reset frame for 80 columns and 24 rows with the text
    "hi", at time 1.0, on the driver of an open socket. *)
Lemma handleStreamMessage_decodes_witness :
  Main.handleStreamMessage
    (binary_data
       (reset_frame 80 24 0x3f800000 [Byte.x68; Byte.x69] ++ [])) open_driver
  = (Normal tt, reset_state open_driver (Some (JNum (Float32 0x3f800000))),
     reset_calls open_driver (num 80) (num 24)
       (Some (JNum (Float32 0x3f800000))) (Some (JStr [104; 105]%N))).
Proof.
  apply (handleStreamMessage_decodes open_driver 80 24 0x3f800000
           [Byte.x68; Byte.x69] [] Byte.x00); cbn; lia.
Defined.

(** ** A declared length that overruns the frame *)

Lemma byte_is_head (b : byte) (rest : list byte) (k : Z) :
  byte_is (b :: rest) 0 k = (byte.unsigned b =? k).
Proof. done. Qed.

Ltac old_stream_handler :=
  unfold Old.handleStreamMessage, getUint16, getUint32, getFloat32, slice;
  frame; rewrite !byte_is_head; fields.

Lemma old_handleResetMessage_run (d : driver) (cols rows time init : value) :
  Old.handleResetMessage cols rows time init d
  = (Normal tt, reset_state d time,
     [logger Debug (vt_reset cols rows time); setState playing None]
     ++ match buf d with
        | Some b => [buf_stop b]
        | None => []
        end
     ++ [getBuffer (buffers d) (bufferTime d) time (minFrameTime d);
         reset cols rows init]).
Proof.
  unfold Old.handleResetMessage, Old.initBuffer, new_buffer, reset_state,
    reset_time.
  step. destruct (buf d) as [b |]; step.
  all: destruct time as [[| | t | | |] |]; step.
  all: unfold clock_setTime, object; by step.
Qed.

(** C10.  A reset or an output frame whose header declares [len] bytes of
    text, followed by the bytes [payload].  In the main revision the text is
    extracted, and the frame handled, exactly when [len] bytes are there;
    when they are not, the view cannot be made: the handler ends by a
    [RangeError], has made no call and changed nothing.  The older revision
    takes the bytes that are there, [len] at most, and handles the frame. *)
Theorem declared_length_overrun (d : driver) (cols rows time len : Z)
    (payload : list byte) :
  0 <= cols < 2 ^ 16 -> 0 <= rows < 2 ^ 16 -> 0 <= time < 2 ^ 32 ->
  0 <= len < 2 ^ 32 ->
  let decode := utfDecoder_decode d in
  let available := take (Z.to_nat len) payload in
  let init := if 0 <? len then Some (JStr (decode available)) else None in
  let event := JArr [JNum (Float32 time); JStr (str "o");
                     JStr (decode available)] in
  let t := Some (JNum (Float32 time)) in
  let pushed :=
    match buf d with
    | Some b => (Normal tt, d, [buf_pushEvent b event])
    | None => (Throw TypeError, d, [])
    end in
  (if decide (Z.to_nat len <= length payload)%nat
   then
     Main.handleStreamMessage
       (binary_data (reset_header cols rows time len ++ payload)) d
     = (Normal tt, reset_state d t, reset_calls d (num cols) (num rows) t init)
     /\ Main.handleStreamMessage
          (binary_data (output_header time len ++ payload)) d
        = pushed
   else
     Main.handleStreamMessage
       (binary_data (reset_header cols rows time len ++ payload)) d
     = (Throw RangeError, d, [])
     /\ Main.handleStreamMessage
          (binary_data (output_header time len ++ payload)) d
        = (Throw RangeError, d, [])
     /\ available = payload)
  /\ Old.handleStreamMessage (reset_header cols rows time len ++ payload) d
     = (Normal tt, reset_state d t,
        [logger Debug (vt_reset (num cols) (num rows) t);
         setState playing None]
        ++ match buf d with
           | Some b => [buf_stop b]
           | None => []
           end
        ++ [getBuffer (buffers d) (bufferTime d) t (minFrameTime d);
            reset (num cols) (num rows) init])
  /\ Old.handleStreamMessage (output_header time len ++ payload) d = pushed.
Proof.
  intros Hcols Hrows Htime Hlen decode available init event t pushed.
  split_and!.
  - case_decide as Hfits; split_and!.
    + stream_handler. change (byte.unsigned Byte.x01 =? 1) with true.
      cbv iota. fields. rewrite !le_combine_2, !le_combine_4 by lia.
      subst init. destruct (0 <? len); step.
      * rewrite ?bind_assoc, bind_bytes_at.
        rewrite decide_True by (cbn [length]; lia).
        cbn [drop]. rewrite drop_0. step. apply handleResetMessage_run.
      * apply handleResetMessage_run.
    + stream_handler. change (byte.unsigned Byte.x6f =? 1) with false.
      change (byte.unsigned Byte.x6f =? 111) with true. cbv iota.
      fields. rewrite !le_combine_4 by lia. rewrite bind_bytes_at.
      rewrite decide_True by (cbn [length]; lia).
      cbn [drop]. rewrite drop_0. step. apply buf_pushEvent_call_run.
    + stream_handler. change (byte.unsigned Byte.x01 =? 1) with true.
      cbv iota. fields. rewrite !le_combine_2, !le_combine_4 by lia.
      replace (0 <? len) with true by (symmetry; apply Z.ltb_lt; lia).
      rewrite ?bind_assoc, bind_bytes_at.
      by rewrite decide_False by (cbn [length]; lia).
    + stream_handler. change (byte.unsigned Byte.x6f =? 1) with false.
      change (byte.unsigned Byte.x6f =? 111) with true. cbv iota.
      fields. rewrite !le_combine_4 by lia. rewrite bind_bytes_at.
      by rewrite decide_False by (cbn [length]; lia).
    + apply take_ge. lia.
  - old_stream_handler. change (byte.unsigned Byte.x01 =? 1) with true.
    cbv iota. fields. rewrite !le_combine_2, !le_combine_4 by lia.
    cbn [drop]. rewrite drop_0.
    replace (13 + Z.to_nat len - 13)%nat with (Z.to_nat len) by lia.
    apply old_handleResetMessage_run.
  - old_stream_handler. change (byte.unsigned Byte.x6f =? 1) with false.
    change (byte.unsigned Byte.x6f =? 111) with true. cbv iota.
    fields. rewrite !le_combine_4 by lia.
    cbn [drop]. rewrite drop_0.
    replace (9 + Z.to_nat len - 9)%nat with (Z.to_nat len) by lia.
    apply buf_pushEvent_call_run.
Qed.

(** The theorem at an output frame that declares five bytes of text and
    carries the two of "hi": the main revision throws, the older one pushes
    "hi". *)
Lemma declared_length_overrun_witness :
  Main.handleStreamMessage
    (binary_data (output_header 0 5 ++ [Byte.x68; Byte.x69])) open_driver
  = (Throw RangeError, open_driver, [])
  /\ Old.handleStreamMessage (output_header 0 5 ++ [Byte.x68; Byte.x69])
       open_driver
     = (Normal tt, open_driver,
        [buf_pushEvent 0
           (JArr [JNum (Float32 0); JStr (str "o"); JStr [104; 105]%N])]).
Proof.
  destruct (declared_length_overrun open_driver 80 24 0 5
              [Byte.x68; Byte.x69]) as (Hmain & _ & Hold); [lia .. |].
  rewrite decide_False in Hmain by (cbn; lia).
  split; [apply Hmain | exact Hold].
Defined.

(** ** Reasoning along the code *)

Section Guarantee.
Variable I : driver -> Prop.
Variable R : driver -> list call -> Prop.
Hypothesis R_nil : forall d, I d -> R d [].
Hypothesis R_seq :
  forall d1 calls1 d2 calls2,
    R d1 calls1 -> (I d1 -> R d2 calls2) -> R d2 (calls1 ++ calls2).

Lemma guarantees_bind {A B : Type} (m : M A) (f : A -> M B) :
  guarantees I R m -> (forall a, guarantees I R (f a)) ->
  guarantees I R (m ≫= f).
Proof.
  intros Hm Hf d Hd. specialize (Hm d Hd). unfold mbind, M_bind.
  destruct (m d) as [[[a | e] d1] calls1]; cbn in *; [| done].
  specialize (Hf a d1). destruct (f a d1) as [[r d2] calls2]; cbn in *.
  eauto.
Qed.

Lemma guarantees_ret {A : Type} (a : A) : guarantees I R (mret (M := M) a).
Proof. intros d Hd. by apply R_nil. Qed.

Lemma guarantees_throw {A : Type} (e : exn) :
  guarantees I R (throw (A := A) e).
Proof. intros d Hd. by apply R_nil. Qed.

Lemma guarantees_read {A : Type} (var : driver -> A) :
  guarantees I R (read var).
Proof. intros d Hd. by apply R_nil. Qed.

Lemma guarantees_object {A : Type} (var : driver -> option A) :
  guarantees I R (object var).
Proof.
  unfold object. apply guarantees_bind; [apply guarantees_read |].
  intros [x |]; [apply guarantees_ret | apply guarantees_throw].
Qed.

Lemma guarantees_invoke (c : call) :
  (forall d, I d -> R d [c]) -> guarantees I R (invoke c).
Proof. intros Hc d Hd. by apply Hc. Qed.

Lemma guarantees_assign (set : driver -> driver) :
  (forall d, I d -> R (set d) []) -> guarantees I R (assign set).
Proof. intros Hset d Hd. by apply Hset. Qed.

(** An execution is a sequence of pieces of code. *)
Lemma guarantees_run (evs : list event) :
  (forall ev, In ev evs -> guarantees I R (deliver ev)) ->
  forall d, I d -> R (run evs d).1 (run evs d).2.
Proof.
  induction evs as [| ev evs IH]; intros Hevs d Hd; cbn [run].
  - by apply R_nil.
  - pose proof (Hevs ev (or_introl eq_refl) d Hd) as Hev.
    destruct (deliver ev d) as [[r d1] calls1]; cbn in Hev.
    assert (Hrest : I d1 -> R (run evs d1).1 (run evs d1).2)
      by (apply IH; intros ev' Hin; apply Hevs; by right).
    destruct (run evs d1) as [d2 calls2]; cbn in *. eauto.
Qed.
End Guarantee.

(** ** No time without a reset *)

Lemma no_clock_nil (d : driver) : no_clock d -> no_clock_unless_reset d [].
Proof. by intros Hd _. Qed.

Lemma no_clock_seq (d1 : driver) (calls1 : list call) (d2 : driver)
    (calls2 : list call) :
  no_clock_unless_reset d1 calls1 ->
  (no_clock d1 -> no_clock_unless_reset d2 calls2) ->
  no_clock_unless_reset d2 (calls1 ++ calls2).
Proof. intros H1 H2 [Hc1 Hc2]%Forall_app. by apply H2; [apply H1 |]. Qed.

Lemma keeps_bind {A B : Type} (m : M A) (f : A -> M B) :
  keeps_no_clock m -> (forall a, keeps_no_clock (f a)) ->
  keeps_no_clock (m ≫= f).
Proof. apply guarantees_bind, no_clock_seq. Qed.

Lemma keeps_ret {A : Type} (a : A) : keeps_no_clock (mret (M := M) a).
Proof. apply guarantees_ret, no_clock_nil. Qed.

Lemma keeps_throw {A : Type} (e : exn) : keeps_no_clock (throw (A := A) e).
Proof. apply guarantees_throw, no_clock_nil. Qed.

Lemma keeps_read {A : Type} (var : driver -> A) : keeps_no_clock (read var).
Proof. apply guarantees_read, no_clock_nil. Qed.

Lemma keeps_object {A : Type} (var : driver -> option A) :
  keeps_no_clock (object var).
Proof. apply guarantees_object; [apply no_clock_nil | apply no_clock_seq]. Qed.

Lemma keeps_invoke (c : call) : keeps_no_clock (invoke c).
Proof. apply guarantees_invoke. by intros d Hd _. Qed.

Lemma keeps_assign (set : driver -> driver) :
  (forall d, clock (set d) = clock d) -> keeps_no_clock (assign set).
Proof.
  intros Hset. apply guarantees_assign. intros d Hd _.
  unfold no_clock. by rewrite Hset.
Qed.

Lemma keeps_handleResetMessage (cols rows time init : value) :
  keeps_no_clock (Main.handleResetMessage cols rows time init).
Proof.
  intros d _ H. exfalso. rewrite handleResetMessage_run in H.
  rewrite Forall_forall in H.
  specialize (H (reset cols rows init)). cbn in H.
  enough (is_reset (reset cols rows init) = false) by done.
  apply H. unfold reset_calls. destruct (buf d); cbn; set_solver.
Qed.

Lemma keeps_handleOfflineMessage : keeps_no_clock Main.handleOfflineMessage.
Proof. intros d _ _. by rewrite handleOfflineMessage_run. Qed.

Lemma keeps_clock_setTime (t : number) : keeps_no_clock (clock_setTime t).
Proof.
  intros d Hd _. unfold clock_setTime, object. step. unfold no_clock in *.
  rewrite Hd. by step.
Qed.

Create HintDb keeps discriminated.

#[local] Hint Resolve keeps_handleResetMessage keeps_handleOfflineMessage
  keeps_clock_setTime keeps_object keeps_invoke : keeps.
#[local] Hint Extern 1 (guarantees _ _ (mret _)) => apply keeps_ret : keeps.
#[local] Hint Extern 1 (guarantees _ _ (throw _)) => apply keeps_throw : keeps.
#[local] Hint Extern 1 (guarantees _ _ (read _)) => apply keeps_read : keeps.
#[local] Hint Extern 1 (guarantees _ _ (assign _)) =>
  apply keeps_assign; done : keeps.

(** The code is followed along its binds and branches down to the pieces
    that are known to keep the property. *)
Ltac keeps :=
  repeat first
    [ solve [auto 1 with keeps nocore]
    | apply keeps_bind; [| intros ?]
    | match goal with
      | |- guarantees _ _ (if ?c then _ else _) => destruct c
      | |- guarantees _ _ (match ?x with _ => _ end) => destruct x
      end ].

Lemma keeps_handleJsonMessage (event : data) :
  keeps_no_clock (Main.handleJsonMessage event).
Proof.
  unfold Main.handleJsonMessage, buf_pushEvent_call, prop, skip. keeps.
Qed.

Lemma keeps_handleStreamMessage (event : data) :
  keeps_no_clock (Main.handleStreamMessage event).
Proof.
  unfold Main.handleStreamMessage, ArrayBuffer_of, getUint8, getUint16,
    getUint32, getFloat32, new_Uint8Array, bytes_at, buf_pushEvent_call, skip.
  keeps.
Qed.

Lemma keeps_handleRawTextMessage (event : data) :
  keeps_no_clock (Main.handleRawTextMessage event).
Proof.
  unfold Main.handleRawTextMessage, ArrayBuffer_of, buf_pushText_call. keeps.
Qed.

Lemma keeps_update_socket (f : WebSocket -> WebSocket) (s : nat) :
  keeps_no_clock (update_socket f s).
Proof. unfold update_socket, skip. keeps. Qed.

#[local] Hint Resolve keeps_handleJsonMessage keeps_handleStreamMessage
  keeps_handleRawTextMessage keeps_update_socket : keeps.

Lemma keeps_detectProtocol (event : data) :
  keeps_no_clock (Main.detectProtocol event).
Proof.
  unfold Main.detectProtocol, set_onmessage, WebSocket_close, skip. keeps.
Qed.

#[local] Hint Resolve keeps_detectProtocol : keeps.

Lemma keeps_deliver (ev : event) : keeps_no_clock (deliver ev).
Proof.
  destruct ev;
    unfold deliver, handle, fire, Main.onopen, Main.onclose, Main.play,
      Main.stop, Main.connect, Main.initBuffer, new_buffer, new_WebSocket,
      setTimeout, clearTimeout, set_readyState, set_binaryType, set_onmessage,
      WebSocket_close, skip;
    keeps.
Qed.

(** C8.  [getCurrentTime] reads the Clock: nothing of a [NullClock], its time
    of a Clock.  The driver starts with a [NullClock]; the offline handling
    calls [setState('offline')] and puts a [NullClock] back; and from a state
    with a [NullClock], whatever happens, the time stays absent as long as
    [reset] is not called. *)
Theorem getCurrentTime_absent_until_reset (d : driver) (evs : list event) :
  Main.getCurrentTime d
  = match clock d with
    | Some NullClock => (Normal None, d, [])
    | Some (Clock t) => (Normal (Some t), d, [])
    | None => (Throw TypeError, d, [])
    end
  /\ (forall url bufferTime reconnectDelay minFrameTime decode,
        clock (Main.websocket url bufferTime reconnectDelay minFrameTime decode)
        = Some NullClock)
  /\ Main.handleOfflineMessage d
     = (Normal tt, with_clock (Some NullClock) d,
        [logger Info stream_offline; setState offline None])
  /\ (clock d = Some NullClock ->
      Forall (fun c => is_reset c = false) (run evs d).2 ->
      Main.getCurrentTime (run evs d).1 = (Normal None, (run evs d).1, [])).
Proof.
  assert (Hget : forall d', Main.getCurrentTime d'
                 = match clock d' with
                   | Some NullClock => (Normal None, d', [])
                   | Some (Clock t) => (Normal (Some t), d', [])
                   | None => (Throw TypeError, d', [])
                   end).
  { intros d'. rewrite getCurrentTime_run. by destruct (clock d') as [[|] |]. }
  split_and!; [apply Hget | done | apply handleOfflineMessage_run |].
  intros Hd Hcalls.
  pose proof (guarantees_run no_clock no_clock_unless_reset no_clock_nil
                no_clock_seq evs (fun ev _ => keeps_deliver ev) d Hd Hcalls)
    as Hend.
  rewrite Hget. by rewrite Hend.
Qed.

(** The theorem on the stream that went offline, when an output event
    arrives next: the time is still absent. *)
Lemma getCurrentTime_absent_until_reset_witness :
  Main.getCurrentTime
    (run [message_event 0 output_message] offline_driver).1
  = (Normal None, (run [message_event 0 output_message] offline_driver).1, []).
Proof.
  apply (proj2 (proj2 (proj2
           (getCurrentTime_absent_until_reset offline_driver
              [message_event 0 output_message])))).
  - vm_compute. reflexivity.
  - vm_compute. repeat constructor.
Defined.

(** ** Unsupported ALiS streams *)

Lemma update_socket_run (f : WebSocket -> WebSocket) (s : nat) (ws : WebSocket)
    (d : driver) :
  sockets d !! s = Some ws ->
  update_socket f s d
  = (Normal tt, with_sockets (<[s := f ws]> (sockets d)) d, []).
Proof. intros Hs. unfold update_socket. step. rewrite Hs. by step. Qed.

Lemma bind_update_socket {B : Type} (f : WebSocket -> WebSocket) (s : nat)
    (ws : WebSocket) (k : unit -> M B) (d : driver) :
  sockets d !! s = Some ws ->
  (update_socket f s ≫= k) d
  = k tt (with_sockets (<[s := f ws]> (sockets d)) d).
Proof. intros Hs. unfold update_socket. step. rewrite Hs. by step. Qed.

Lemma bind_object {A B : Type} (var : driver -> option A) (x : A)
    (k : A -> M B) (d : driver) :
  var d = Some x -> (object var ≫= k) d = k x d.
Proof. intros H. unfold object. step. rewrite H. by step. Qed.

(** The claim that every such error is logged at error level fails on a
    stream of version 2: the one call is a warning. *)
Lemma unsupported_version_not_logged_as_error :
  (Main.detectProtocol (binary_data (ALiS_header Byte.x02 Byte.x00))
     open_driver).2
  = [logger Warn (unsupported_ALiS_version (num 2))]
  /\ ~ logs_at Error
         (Main.detectProtocol (binary_data (ALiS_header Byte.x02 Byte.x00))
            open_driver).2.
Proof.
  assert (Hcalls :
    (Main.detectProtocol (binary_data (ALiS_header Byte.x02 Byte.x00))
       open_driver).2
    = [logger Warn (unsupported_ALiS_version (num 2))])
    by (vm_compute; reflexivity).
  split; [done |]. rewrite Hcalls. intros [msg Hin].
  apply list_elem_of_singleton in Hin. discriminate.
Qed.

(** C3, amended.  On a first binary frame with the magic, received on the
    driver's open socket: when the version byte is not 1, a warning is logged;
    when it is 1 and the compression byte is not 0, an error is logged, after
    the information that the ALiS handler is activated; in both cases the
    socket is closed, and a closing socket hands no further message to the
    driver, whichever handler it is bound to. *)
Theorem unsupported_ALiS_closes (d : driver) (s : nat) (ws : WebSocket)
    (arr : list byte) :
  socket d = Some s -> sockets d !! s = Some ws -> readyState ws = OPEN ->
  is_ALiS arr = true -> byte_is arr 4 1 && byte_is arr 5 0 = false ->
  exists d' : driver,
    Main.detectProtocol (binary_data arr) d
    = (Normal tt, d',
       if byte_is arr 4 1
       then [logger Info activating_ALiS_v1_handler;
             logger Error (unsupported_compression_algorithm (element arr 5))]
       else [logger Warn (unsupported_ALiS_version (element arr 4))])
    /\ sockets d' !! s
       = Some (mkWebSocket (ws_url ws) (binaryType ws)
                 (if byte_is arr 4 1 then Some handleStreamMessage_handler
                  else onmessage ws)
                 CLOSING)
    /\ forall later : data,
         deliver (message_event s later) d' = (Normal tt, d', []).
Proof.
  intros Hsock Hws Hopen Hmagic Hbad.
  assert (Hlt : (s < length (sockets d))%nat) by by eapply lookup_lt_Some.
  unfold Main.detectProtocol. rewrite Hmagic.
  destruct (byte_is arr 4 1); cbn [andb] in Hbad.
  - rewrite Hbad. step. rewrite (bind_object _ s) by done.
    unfold WebSocket_close, set_onmessage.
    rewrite (bind_update_socket _ _ ws) by done.
    rewrite (bind_object _ s) by done.
    erewrite update_socket_run by (cbn; by apply list_lookup_insert_eq).
    cbn [sockets with_sockets]. rewrite list_insert_insert_eq, Hopen.
    eexists. split; [reflexivity |].
    cbn [ws_url binaryType onmessage readyState].
    split; [cbn; by apply list_lookup_insert_eq |].
    intros later. unfold deliver. step.
    rewrite list_lookup_insert_eq by done. by step.
  - step. rewrite (bind_object _ s) by done. unfold WebSocket_close.
    erewrite update_socket_run by done. rewrite Hopen. step.
    eexists. split; [reflexivity |].
    split; [cbn; by apply list_lookup_insert_eq |].
    intros later. unfold deliver. step.
    rewrite list_lookup_insert_eq by done. by step.
Qed.

(** The theorem on a stream of version 1 that announces the compression
    algorithm 1. *)
Lemma unsupported_ALiS_closes_witness :
  exists d' : driver,
    Main.detectProtocol (binary_data (ALiS_header Byte.x01 Byte.x01))
      open_driver
    = (Normal tt, d',
       [logger Info activating_ALiS_v1_handler;
        logger Error (unsupported_compression_algorithm (num 1))])
    /\ sockets d' !! 0%nat
       = Some (mkWebSocket (str "ws://localhost/ws/s/1") arraybuffer
                 (Some handleStreamMessage_handler) CLOSING)
    /\ forall later : data,
         deliver (message_event 0 later) d' = (Normal tt, d', []).
Proof.
  apply (unsupported_ALiS_closes open_driver 0
           (mkWebSocket (str "ws://localhost/ws/s/1") arraybuffer
              (Some detectProtocol_handler) OPEN)
           (ALiS_header Byte.x01 Byte.x01));
    vm_compute; reflexivity.
Defined.

(** The older revision reads no compression byte: a stream of version 1 is
    accepted whatever its sixth byte. *)
Lemma old_detectProtocol_ignores_compression (d : driver) (s : nat)
    (ws : WebSocket) (compression : byte) :
  socket d = Some s -> sockets d !! s = Some ws ->
  Old.detectProtocol (binary_data (ALiS_header Byte.x01 compression)) d
  = (Normal tt,
     with_sockets
       (<[s := mkWebSocket (ws_url ws) (binaryType ws)
                 (Some handleStreamMessage_handler) (readyState ws)]>
          (sockets d)) d,
     [logger Info activating_ALiS_v1_handler]).
Proof.
  intros Hsock Hws. unfold Old.detectProtocol.
  change (is_ALiS (ALiS_header Byte.x01 compression)) with true.
  change (byte_is (ALiS_header Byte.x01 compression) 4 1) with true.
  cbv iota. step. rewrite (bind_object _ s) by done.
  unfold set_onmessage. erewrite update_socket_run by done. by step.
Qed.

(** ** After [stop] *)

(** The claim that no callback is called after [stop] fails when the socket
    that [stop] closed reports its closing: the close handler calls
    [setState]. *)
Lemma close_after_stop_calls_setState :
  stop stopped_driver = true
  /\ (run [close_event 0 1005] stopped_driver).2
     = [logger Info closed; setState stopped (Some reason_ended)]
  /\ ~ Forall (fun c => is_callback c = false)
        (run [close_event 0 1005] stopped_driver).2.
Proof.
  assert (Hcalls :
    (run [close_event 0 1005] stopped_driver).2
    = [logger Info closed; setState stopped (Some reason_ended)])
    by (vm_compute; reflexivity).
  split_and!; [by vm_compute | done |].
  rewrite Hcalls. intros H. apply Forall_cons_1 in H as [_ H].
  apply Forall_cons_1 in H as [H _]. discriminate.
Qed.

Lemma halted_nil (d : driver) : halted d -> halted_and_quiet d [].
Proof. by split. Qed.

Lemma halted_seq (d1 : driver) (calls1 : list call) (d2 : driver)
    (calls2 : list call) :
  halted_and_quiet d1 calls1 -> (halted d1 -> halted_and_quiet d2 calls2) ->
  halted_and_quiet d2 (calls1 ++ calls2).
Proof.
  intros [H1 Hc1] H2. destruct (H2 H1) as [Hd2 Hc2].
  split; [done | by apply Forall_app].
Qed.

Lemma closing_not_state (ws : WebSocket) :
  closing ws -> is_state CONNECTING ws = false /\ is_state OPEN ws = false.
Proof. unfold is_state. by intros [-> | ->]. Qed.

Lemma onclose_stopped (code : Z) (d : driver) :
  stop d = true ->
  Main.onclose code d
  = (Normal tt, d, [logger Info closed; setState stopped (Some reason_ended)]).
Proof.
  intros Hstop. unfold Main.onclose. step. rewrite Hstop. cbn [orb]. by step.
Qed.

Lemma halted_update_socket (s : nat) (ws : WebSocket) (d : driver) :
  halted d -> closing ws -> halted (with_sockets (<[s := ws]> (sockets d)) d).
Proof.
  intros (Hstop & Hsockets & Htimers) Hf. split_and!; [done | | done].
  intros s' ws' [(_ & <- & _) | (_ & Hs')]%list_lookup_insert_Some; eauto.
Qed.

(** What [stop] does with the socket. *)
Lemma stop_closes_socket (d : driver) :
  stop d = true -> one_connection d -> no_reconnect_pending d ->
  halted_and_quiet
    (match socket d with
     | Some id => WebSocket_close id
     | None => skip
     end d).1.2
    (match socket d with
     | Some id => WebSocket_close id
     | None => skip
     end d).2.
Proof.
  intros Hstop Hone Htimers.
  destruct (socket d) as [s |] eqn:Hsocket.
  - unfold WebSocket_close, update_socket. step.
    destruct (sockets d !! s) as [ws |] eqn:Hws; step; apply halted_nil.
    + split_and!; [done | | done].
      intros s' ws' [(_ & <- & _) | (Hne & Hs')]%list_lookup_insert_Some.
      * unfold closing. cbn. destruct (readyState ws); auto.
      * destruct (Hone s' ws' Hs') as [Heq | Hc]; [| done].
        rewrite Hsocket in Heq. by injection Heq.
    + split_and!; [done | | done].
      intros s' ws' Hs'. destruct (Hone s' ws' Hs') as [Heq | Hc]; [| done].
      rewrite Hsocket in Heq. injection Heq as ->. by rewrite Hws in Hs'.
  - step. apply halted_nil. split_and!; [done | | done].
    intros s' ws' Hs'. destruct (Hone s' ws' Hs') as [Heq | Hc]; [| done].
    by rewrite Hsocket in Heq.
Qed.

Lemma stop_halts (d : driver) :
  one_connection d -> no_reconnect_pending d ->
  halted_and_quiet (Main.stop d).1.2 (Main.stop d).2.
Proof.
  intros Hone Htimers. unfold Main.stop. step.
  pose proof (stop_closes_socket (with_stop true d) eq_refl Hone Htimers)
    as Hclose.
  cbn [socket with_stop] in Hclose.
  destruct (buf d) as [b |]; step; [| done].
  destruct (match socket d with
            | Some id => WebSocket_close id
            | None => skip
            end (with_stop true d)) as [[r d'] calls'].
  cbn in *. destruct Hclose. split; [done | by constructor].
Qed.

(** Every event but a call to [play] leaves a halted driver halted, and
    quiet. *)
Lemma deliver_halted (ev : event) :
  ev <> play_call -> guarantees halted halted_and_quiet (deliver ev).
Proof.
  intros Hev d Hd. pose proof Hd as (Hstop & Hsockets & Htimers).
  destruct ev as [s | s data | s code | id | t | |]; [.. | done |];
    unfold deliver.
  - step.
    destruct (sockets d !! s) as [ws |] eqn:Hws; [| by step; apply halted_nil].
    destruct (closing_not_state ws) as [-> _]; [by eauto |].
    step. by apply halted_nil.
  - step.
    destruct (sockets d !! s) as [ws |] eqn:Hws; [| by step; apply halted_nil].
    destruct (closing_not_state ws) as [_ ->]; [by eauto |].
    step. by apply halted_nil.
  - step.
    destruct (sockets d !! s) as [ws |] eqn:Hws; [| by step; apply halted_nil].
    destruct (is_state CLOSED ws); [by step; apply halted_nil |].
    unfold set_readyState. rewrite (bind_update_socket _ _ ws) by done.
    rewrite onclose_stopped by done. cbn [fst snd].
    split; [| by repeat constructor].
    apply halted_update_socket; [done | by right].
  - step.
    destruct (timers d !! id) as [[callback delay] |] eqn:Hid;
      [| by step; apply halted_nil].
    pose proof (Htimers id _ Hid) as Hcb. cbn in Hcb. subst callback.
    unfold clearTimeout, fire. step. apply halted_nil.
    split_and!; [done | done |]. by apply map_Forall_delete.
  - unfold clock_setTime, object. step.
    destruct (clock d); step; by apply halted_nil.
  - apply stop_halts; [| done].
    intros s ws Hs. right. eauto.
Qed.

(** C1, amended.  [stop] called on a driver that has one connection at most
    and no reconnect pending stops the Buffer and closes the socket.  From
    then on, whatever the browser delivers (messages in flight, the stability
    timer, the closing of the socket), the driver calls neither [reset] nor
    [setState], but for [setState('stopped', { reason: 'ended' })]: that is the
    one call the close handler makes, and it sets no timer; the stop flag
    stays set and no reconnect is ever pending. *)
Theorem stop_silences (d : driver) (evs : list event) (code : Z) :
  one_connection d -> no_reconnect_pending d -> play_call ∉ evs ->
  let stopped_driver := (Main.stop d).1.2 in
  let final := (run evs stopped_driver).1 in
  (Main.stop d).2
  = match buf d with
    | Some b => [buf_stop b]
    | None => []
    end
  /\ Forall (fun c => after_stop c = true) (run evs stopped_driver).2
  /\ stop final = true
  /\ no_reconnect_pending final
  /\ Main.onclose code final
     = (Normal tt, final,
        [logger Info closed; setState stopped (Some reason_ended)]).
Proof.
  intros Hone Htimers Hplay stopped_driver final.
  destruct (stop_halts d Hone Htimers) as [Hhalted _].
  fold stopped_driver in Hhalted.
  assert (Hrun : halted_and_quiet final (run evs stopped_driver).2).
  { apply (guarantees_run halted halted_and_quiet halted_nil halted_seq);
      [| done].
    intros ev Hin. apply deliver_halted. intros ->.
    by apply Hplay, list_elem_of_In. }
  destruct Hrun as [(Hstop & _ & Hpending) Hquiet].
  split_and!; [| done | done | done | by apply onclose_stopped].
  unfold Main.stop. step.
  destruct (buf d) as [b |]; step.
  all: destruct (socket d) as [s |]; [| by step].
  all: unfold WebSocket_close, update_socket; step.
  all: by destruct (sockets d !! s); step.
Qed.

(** The theorem on the driver of an open socket, stopped while a reset
    message is in flight and the stability timer is pending; the socket then
    reports its closing. *)
Lemma stop_silences_witness :
  Forall (fun c => after_stop c = true)
    (run [message_event 0 reset_message; timeout 0; close_event 0 1006]
       (Main.stop open_driver).1.2).2.
Proof.
  assert (Hsockets : sockets open_driver
                     = [mkWebSocket (str "ws://localhost/ws/s/1") arraybuffer
                          (Some detectProtocol_handler) OPEN])
    by (vm_compute; reflexivity).
  assert (Htimers : timers open_driver
                    = <[0%nat := (reset_reconnectAttempt, Int 1000)]> ∅)
    by (vm_compute; reflexivity).
  apply (stop_silences open_driver
           [message_event 0 reset_message; timeout 0; close_event 0 1006]
           1006).
  - intros s ws Hs. left. rewrite Hsockets in Hs.
    destruct s as [| s]; [done | by destruct s].
  - unfold no_reconnect_pending. rewrite Htimers.
    apply map_Forall_insert_2; [done | apply map_Forall_empty].
  - rewrite !elem_of_cons, elem_of_nil. by intros [| [| [|]]].
Defined.

(** What the theorem leaves out: [connect] does not look at the stop flag, so
    a reconnect that was pending when [stop] was called still makes a
    connection, and its stream is played. *)
Lemma stop_while_reconnect_pending :
  stop (run [play_call; open_event 0; close_event 0 1006; stop_call]
          new_driver).1
  = true
  /\ last_state
       (run [play_call; open_event 0; close_event 0 1006; stop_call;
             timeout 1; open_event 1; message_event 1 reset_message]
          new_driver).2
     = Some playing.
Proof. split; by vm_compute. Qed.

(** ** The matcher and the language of a regular expression *)

(** What [longest_first] returns was accepted, and it returns something as
    soon as one length of the range is accepted. *)
Lemma longest_first_Some {A : Type} (f : nat -> option A) (lo n : nat)
    (a : A) :
  longest_first f lo n = Some a ->
  exists k : nat, (lo <= k <= n)%nat /\ f k = Some a.
Proof.
  induction n as [| n IH]; cbn [longest_first]; case_decide; try done.
  - destruct (f 0%nat) eqn:H0; [| done]. intros [= ->].
    exists 0%nat. split; [lia | done].
  - destruct (f (S n)) eqn:HS.
    + intros [= ->]. exists (S n). split; [lia | done].
    + intros (k & Hk & Hf)%IH. exists k. split; [lia | done].
Qed.

Lemma longest_first_is_Some {A : Type} (f : nat -> option A) (lo n k : nat) :
  (lo <= k <= n)%nat -> is_Some (f k) -> is_Some (longest_first f lo n).
Proof.
  intros Hk Hf.
  induction n as [| n IH]; cbn [longest_first]; case_decide; try lia.
  - assert (k = 0)%nat as -> by lia. destruct Hf as [a ->]. eauto.
  - destruct (f (S n)) eqn:HS; [eauto |].
    apply IH. destruct (decide (k = S n)) as [-> | Hne]; [| lia].
    rewrite HS in Hf. by destruct Hf.
Qed.

(** The lengths up to [span] are those of the prefixes of the class. *)
Lemma span_take (cls : char_class) (hi : option nat) (s : jsstring)
    (n : nat) :
  (n <= span cls hi s)%nat ->
  all_in cls (take n s) /\ length (take n s) = n /\ within n hi.
Proof.
  revert hi n. induction s as [| c s IH]; intros hi n Hn.
  - assert (n = 0)%nat as -> by (destruct hi as [[|]|]; cbn in Hn; lia).
    split_and!; [constructor | done | destruct hi; cbn; lia].
  - destruct n as [| n];
      [split_and!; [constructor | done | destruct hi; cbn; lia] |].
    assert (Hc : in_class cls c = true /\ (n <= span cls (pred <$> hi) s)%nat
                 /\ hi <> Some 0%nat).
    { destruct hi as [[| h] |]; cbn in Hn; [lia | |];
        destruct (in_class cls c); cbn in *;
        (split_and!; [done | lia | done]) || lia. }
    destruct Hc as (Hc & Hspan & Hhi).
    destruct (IH _ _ Hspan) as (Hall & Hlen & Hwithin).
    split_and!; cbn.
    + by constructor.
    + by rewrite Hlen.
    + destruct hi as [[| h] |]; cbn in *; [done | lia | done].
Qed.

Lemma span_prefix (cls : char_class) (hi : option nat) (u s : jsstring) :
  all_in cls u -> within (length u) hi ->
  (length u <= span cls hi (u ++ s))%nat.
Proof.
  revert hi. induction u as [| c u IH]; intros hi Hall Hhi; [cbn; lia |].
  apply Forall_cons_1 in Hall as [Hc Hall].
  destruct hi as [[| h] |]; cbn in *; [lia | |]; rewrite Hc.
  - specialize (IH (Some h) Hall). cbn in IH. lia.
  - specialize (IH None Hall). cbn in IH. lia.
Qed.

(** The matcher is sound for the language: what it matches is a prefix of
    the text that is in the language, with these captures. *)
Lemma match_here_sound (r : regex) (s : jsstring) (caps : list jsstring) :
  match_here r s = Some caps ->
  exists w rest : jsstring, s = w ++ rest /\ matches r w caps.
Proof.
  revert s caps.
  induction r as [| [c | cls | lo hi cls] r IH]; intros s caps;
    cbn [match_here].
  - intros [= <-]. exists [], s. split; [done | constructor].
  - destruct s as [| c' s]; [done |].
    destruct (N.eqb_spec c c') as [<- | _]; [| done].
    intros (w & rest & -> & Hm)%IH.
    exists (c :: w), rest. split; [done | by constructor].
  - intros (n & Hn & (w & rest & Hdrop & Hm)%IH)%longest_first_Some.
    destruct (span_take cls None s n) as (Hall & _ & _); [lia |].
    exists (take n s ++ w), rest. split; [| by constructor].
    by rewrite <- (take_drop n s) at 1; rewrite Hdrop, app_assoc.
  - intros (n & Hn & Hf)%longest_first_Some.
    destruct (match_here r (drop n s)) as [caps' |] eqn:Hrest; [| done].
    injection Hf as <-. apply IH in Hrest as (w & rest & Hdrop & Hm).
    destruct (span_take cls hi s n) as (Hall & Hlen & Hhi); [lia |].
    exists (take n s ++ w), rest. split.
    + by rewrite <- (take_drop n s) at 1; rewrite Hdrop, app_assoc.
    + constructor; rewrite ?Hlen; (done || lia).
Qed.

(** The matcher is complete: where a text of the language starts, it
    matches, if not always that text. *)
Lemma match_here_complete (r : regex) (w : jsstring) (caps : list jsstring)
    (rest : jsstring) :
  matches r w caps -> is_Some (match_here r (w ++ rest)).
Proof.
  induction 1 as [| c r w caps Hm IH | cls r u w caps Hall Hm IH
                  | lo hi cls r u w caps Hall Hlo Hhi Hm IH]; cbn [match_here].
  - eauto.
  - cbn. by rewrite N.eqb_refl.
  - apply (longest_first_is_Some _ _ _ (length u)).
    + split; [lia |]. rewrite <- app_assoc. by apply span_prefix.
    + by rewrite <- app_assoc, drop_app_length.
  - apply (longest_first_is_Some _ _ _ (length u)).
    + split; [lia |]. rewrite <- app_assoc. by apply span_prefix.
    + rewrite <- app_assoc, drop_app_length.
      destruct IH as [caps' ->]. by eexists.
Qed.

Lemma String_match_complete (r : regex) (pre w post : jsstring)
    (caps : list jsstring) :
  matches r w caps -> is_Some (String_match r (pre ++ w ++ post)).
Proof.
  intros Hm. induction pre as [| c pre IH].
  - cbn [app]. pose proof (match_here_complete r w caps post Hm) as [caps' Hc].
    destruct (w ++ post); cbn [String_match]; rewrite Hc; eauto.
  - cbn [app String_match]. destruct (match_here r _); eauto.
Qed.

(** The match found is the leftmost. *)
Lemma String_match_leftmost (r : regex) (text : jsstring)
    (caps : list jsstring) :
  String_match r text = Some caps ->
  exists pre w post : jsstring,
    text = pre ++ w ++ post /\ matches r w caps
    /\ forall pre' w' post' caps',
         text = pre' ++ w' ++ post' -> matches r w' caps' ->
         (length pre <= length pre')%nat.
Proof.
  assert (Hhead : forall s,
            is_Some (match_here r s)
            \/ forall pre' w' post' caps',
                 s = pre' ++ w' ++ post' -> matches r w' caps' -> pre' <> []).
  { intros s. destruct (match_here r s) eqn:Hm; [by eauto |]. right.
    intros pre' w' post' caps' -> Hm' ->. cbn [app] in Hm.
    pose proof (match_here_complete r w' caps' post' Hm') as [? Hc].
    congruence. }
  induction text as [| c text IH]; cbn [String_match].
  - destruct (match_here r []) eqn:Hm; [| done]. intros [= ->].
    apply match_here_sound in Hm as (w & rest & ? & ?).
    exists [], w, rest. split_and!; [done | done | cbn; lia].
  - destruct (match_here r (c :: text)) eqn:Hm.
    + intros [= ->]. apply match_here_sound in Hm as (w & rest & ? & ?).
      exists [], w, rest. split_and!; [done | done | cbn; lia].
    + intros (pre & w & post & -> & Hm' & Hleft)%IH.
      exists (c :: pre), w, post. split_and!; [done | done |].
      intros pre' w' post' caps' Htext Hw'.
      destruct (Hhead (c :: pre ++ w ++ post)) as [[? Hs] | Hnone];
        [congruence |].
      destruct pre' as [| c' pre'];
        [by destruct (Hnone _ _ _ _ Htext Hw') |].
      injection Htext as -> Htext. cbn [length].
      specialize (Hleft pre' w' post' caps' Htext Hw'). lia.
Qed.

(** The texts of the two regular expressions of the driver. *)
Ltac invert_matches :=
  repeat match goal with
         | H : matches (_ :: _) _ _ |- _ => inversion H; subst; clear H
         | H : matches [] _ _ |- _ => inversion H; subst; clear H
         end.

Lemma matches_resize_seq (w : jsstring) (caps : list jsstring) :
  matches resize_seq w caps <->
  exists rows cols, digits rows /\ digits cols
                    /\ w = resize_sequence rows cols /\ caps = [rows; cols].
Proof.
  let r := eval vm_compute in resize_seq in change resize_seq with r.
  split.
  - intros H. invert_matches.
    match goal with
    | |- exists rows cols, _ /\ _ /\ _ /\ [?a; ?b] = _ => exists a, b
    end.
    by split_and!.
  - intros (rows & cols & [Hr Hrl] & [Hc Hcl] & -> & ->).
    change (resize_sequence rows cols)
      with (27 :: 91 :: 56 :: 59 :: rows ++ 59 :: cols ++ [116])%N.
    repeat (constructor; try done).
Qed.

Lemma matches_script_start (w : jsstring) (caps : list jsstring) :
  matches script_start w caps <->
  exists before cols rows after,
    all_in any before /\ all_in any after
    /\ digits cols /\ (length cols <= 3)%nat
    /\ digits rows /\ (length rows <= 3)%nat
    /\ w = script_start_marker before cols rows after /\ caps = [cols; rows].
Proof.
  let r := eval vm_compute in script_start in change script_start with r.
  split.
  - intros H. invert_matches.
    match goal with
    | Hb : all_in any ?b, Ha : all_in any ?a
      |- exists before cols rows after,
           _ /\ _ /\ _ /\ _ /\ _ /\ _
           /\ _ :: ?b' ++ _ = _ /\ [?c; ?r] = _ =>
        unify b b'; exists b, c, r, a
    end.
    by split_and!.
  - intros (before & cols & rows & after & Hb & Ha & [Hc Hcl] & Hc3 & [Hr Hrl]
            & Hr3 & -> & ->).
    unfold script_start_marker.
    let s := eval vm_compute in (str "[") in change (str "[") with s.
    let s := eval vm_compute in (str "COLUMNS=") in
      change (str "COLUMNS=") with s.
    let s := eval vm_compute in (str " LINES=") in
      change (str " LINES=") with s.
    let s := eval vm_compute in (str "]") in change (str "]") with s.
    cbn [app]. constructor. constructor; [done |].
    repeat (constructor; try done).
Qed.

(** [String_match] finds the first text of the language, when there is
    one. *)
Lemma String_match_first (r : regex) (text : jsstring) :
  let P w := exists caps, matches r w caps in
  match String_match r text with
  | Some caps => exists w, first_in P text w /\ matches r w caps
  | None => nowhere_in P text
  end.
Proof.
  cbn zeta. destruct (String_match r text) as [caps |] eqn:Hm.
  - apply String_match_leftmost in Hm as (pre & w & post & -> & Hw & Hleft).
    exists w. split; [| done].
    exists pre, post. split_and!; [done | by eauto |].
    intros pre' w' post' Htext [caps' Hw']. eauto.
  - intros pre w post -> [caps Hw].
    pose proof (String_match_complete r pre w post caps Hw) as [? Hs].
    congruence.
Qed.

Lemma first_in_iff (P Q : jsstring -> Prop) (text w : jsstring) :
  (forall w, P w <-> Q w) -> first_in P text w -> first_in Q text w.
Proof.
  intros HPQ (pre & post & -> & Hw & Hleft). exists pre, post.
  split_and!; [done | by apply HPQ |].
  intros pre' w' post' Htext Hw'. eapply Hleft; [done | by apply HPQ].
Qed.

Lemma nowhere_in_iff (P Q : jsstring -> Prop) (text : jsstring) :
  (forall w, P w <-> Q w) -> nowhere_in P text -> nowhere_in Q text.
Proof.
  intros HPQ Hno pre w post Htext Hw. eapply Hno; [done | by apply HPQ].
Qed.

Lemma a_resize_sequence_matches (w : jsstring) :
  (exists caps, matches resize_seq w caps) <-> a_resize_sequence w.
Proof.
  unfold a_resize_sequence, is_resize_sequence. split.
  - intros [caps (rows & cols & ? & ? & ? & ?)%matches_resize_seq]. eauto 6.
  - intros (rows & cols & ? & ? & ?). exists [rows; cols].
    apply matches_resize_seq. eauto 6.
Qed.

Lemma a_script_start_matches (w : jsstring) :
  (exists caps, matches script_start w caps) <-> a_script_start w.
Proof.
  unfold a_script_start, is_script_start. split.
  - intros [caps (before & cols & rows & after & H)%matches_script_start].
    exists cols, rows, before, after. tauto.
  - intros (cols & rows & before & after & H). exists [cols; rows].
    apply matches_script_start. exists before, cols, rows, after. tauto.
Qed.

(** ** The first frame of a raw stream *)

Lemma sizeFromResizeSeq_first (text : jsstring) :
  match Main.sizeFromResizeSeq text with
  | Some (c, r) =>
      exists w rows cols,
        first_in a_resize_sequence text w /\ is_resize_sequence w rows cols
        /\ c = parseInt cols /\ r = parseInt rows
  | None => nowhere_in a_resize_sequence text
  end.
Proof.
  unfold Main.sizeFromResizeSeq.
  pose proof (String_match_first resize_seq text) as H. cbn zeta in H.
  destruct (String_match resize_seq text) as [caps |].
  - destruct H as (w & Hfirst & Hw).
    apply (first_in_iff _ _ _ _ a_resize_sequence_matches) in Hfirst.
    apply matches_resize_seq in Hw as (rows & cols & ? & ? & -> & ->).
    exists (resize_sequence rows cols), rows, cols. by split_and!.
  - by apply (nowhere_in_iff _ _ _ a_resize_sequence_matches).
Qed.

Lemma sizeFromScriptStartMessage_first (text : jsstring) :
  match Main.sizeFromScriptStartMessage text with
  | Some (c, r) =>
      exists w cols rows,
        first_in a_script_start text w /\ is_script_start w cols rows
        /\ c = parseInt cols /\ r = parseInt rows
  | None => nowhere_in a_script_start text
  end.
Proof.
  unfold Main.sizeFromScriptStartMessage.
  pose proof (String_match_first script_start text) as H. cbn zeta in H.
  destruct (String_match script_start text) as [caps |].
  - destruct H as (w & Hfirst & Hw).
    apply (first_in_iff _ _ _ _ a_script_start_matches) in Hfirst.
    apply matches_script_start
      in Hw as (before & cols & rows & after & ? & ? & ? & ? & ? & ? & -> & ->).
    exists (script_start_marker before cols rows after), cols, rows.
    split_and!; [done | | done | done]. exists before, after. by split_and!.
  - by apply (nowhere_in_iff _ _ _ a_script_start_matches).
Qed.

Lemma buf_pushText_call_run (text : jsstring) (d : driver) :
  buf_pushText_call text d
  = match buf d with
    | Some b => (Normal tt, d, [buf_pushText b text])
    | None => (Throw TypeError, d, [])
    end.
Proof. unfold buf_pushText_call, object. step. by destruct (buf d); step. Qed.

Lemma bind_run {A B : Type} (m : M A) (k : A -> M B) (d d' : driver) (a : A)
    (calls : list call) :
  m d = (Normal a, d', calls) -> (m ≫= k) d = after calls (k a d').
Proof.
  intros Hm. unfold mbind, M_bind, after. rewrite Hm.
  by destruct (k a d') as [[? ?] ?].
Qed.

(** C9.  On a first binary frame without the magic, received on the driver's
    socket: the text decoded from it is searched for a first resize sequence
    [ESC [ 8 ; rows ; cols t] and, when there is none, for a first
    script-start marker with [COLUMNS] and [LINES]; when one is found, the
    reset handling runs once, with the columns and rows read there, time 0 and
    no initial text; then, in both cases, the raw handler is bound to the
    socket and the text is pushed to the Buffer, the new one after a reset. *)
Theorem raw_stream_sniffed (d : driver) (s : nat) (ws : WebSocket)
    (arr : list byte) :
  socket d = Some s -> sockets d !! s = Some ws -> is_ALiS arr = false ->
  let text := utfDecoder_decode d arr in
  let size :=
    match Main.sizeFromResizeSeq text with
    | Some size => Some size
    | None => Main.sizeFromScriptStartMessage text
    end in
  let bound (d : driver) :=
    with_sockets
      (<[s := mkWebSocket (ws_url ws) (binaryType ws)
                (Some handleRawTextMessage_handler) (readyState ws)]>
         (sockets d)) d in
  sniffed text size
  /\ Main.detectProtocol (binary_data arr) d
     = match size with
       | Some (cols, rows) =>
           (Normal tt, bound (reset_state d (num 0)),
            [logger Info activating_raw_text_handler]
            ++ reset_calls d cols rows (num 0) None
            ++ [buf_pushText (buffers d) text])
       | None =>
           match buf d with
           | Some b =>
               (Normal tt, bound d,
                [logger Info activating_raw_text_handler;
                 buf_pushText b text])
           | None =>
               (Throw TypeError, bound d,
                [logger Info activating_raw_text_handler])
           end
       end.
Proof.
  intros Hsocket Hws Hmagic text size bound. split.
  - subst size. pose proof (sizeFromResizeSeq_first text) as Hr.
    pose proof (sizeFromScriptStartMessage_first text) as Hs.
    destruct (Main.sizeFromResizeSeq text) as [[c r] |]; [by left |].
    destruct (Main.sizeFromScriptStartMessage text) as [[c r] |]; [by right |].
    done.
  - unfold Main.detectProtocol. rewrite Hmagic. step. fold text. fold size.
    unfold set_onmessage, Main.handleRawTextMessage, ArrayBuffer_of.
    destruct size as [[cols rows] |]; step.
    + erewrite bind_run by apply handleResetMessage_run.
      rewrite (bind_object _ s) by done.
      rewrite (bind_update_socket _ _ ws) by done. step.
      rewrite buf_pushText_call_run.
      cbn [buf with_sockets reset_state with_clock with_buf]. by step.
    + rewrite (bind_object _ s) by done.
      rewrite (bind_update_socket _ _ ws) by done. step.
      rewrite buf_pushText_call_run. cbn [buf with_sockets].
      by destruct (buf d).
Qed.

(** The theorem on a first frame that carries the resize sequence for 24 rows
    and 80 columns, received on the open socket. *)
Lemma raw_stream_sniffed_witness :
  (Main.detectProtocol (binary_data resize_message) open_driver).2
  = [logger Info activating_raw_text_handler;
     logger Debug (stream_reset (num 80) (num 24) (num 0));
     setState playing None; buf_stop 0;
     getBuffer 1 (bufferTime open_driver) (num 0) None;
     reset (num 80) (num 24) None;
     buf_pushText 1 (ascii_decode resize_message)].
Proof.
  destruct (raw_stream_sniffed open_driver 0
              (mkWebSocket (str "ws://localhost/ws/s/1") arraybuffer
                 (Some detectProtocol_handler) OPEN)
              resize_message) as [_ Hrun];
    [vm_compute; reflexivity .. |].
  rewrite Hrun. vm_compute. reflexivity.
Defined.

(** ** The numbers [parseInt] returns *)

(** Below 2^53 the number written is a double. *)
Lemma nearest_double_exact (z : Z) :
  z < 2 ^ 53 -> nearest_double z = Int z.
Proof.
  intros Hz. unfold nearest_double.
  destruct (Z.leb_spec (Z.log2 z - 52) 0) as [_ | Hshift]; [done |].
  assert (0 < z) by (destruct z; cbn in Hshift; lia).
  apply Z.log2_lt_pow2 in Hz; lia.
Qed.

(** From 2^53 on the value is a multiple of the unit in the last place with
    53 bits at most, at half a unit from the number at most, and the even
    one of the two when the number is half way; or it is infinity. *)
Lemma nearest_double_rounds (z : Z) :
  2 ^ 53 <= z ->
  match nearest_double z with
  | Int v =>
      v mod ulp z = 0 /\ v / ulp z <= 2 ^ 53 /\ v < 2 ^ 1024
      /\ 2 * Z.abs (v - z) <= ulp z
      /\ (2 * Z.abs (v - z) = ulp z -> Z.even (v / ulp z) = true)
  | Infinity => 2 ^ 1024 - 2 ^ 970 <= z
  | _ => False
  end.
Proof.
  intros Hz. unfold nearest_double, ulp.
  assert (Hlog : 53 <= Z.log2 z) by (apply Z.log2_le_pow2; lia).
  destruct (Z.leb_spec (Z.log2 z - 52) 0) as [? | _]; [lia |].
  set (shift := Z.log2 z - 52) in *.
  assert (Hhalf : 2 ^ shift = 2 * 2 ^ (shift - 1)).
  { replace shift with (Z.succ (shift - 1)) at 1 by lia.
    apply Z.pow_succ_r. lia. }
  assert (Hpos : 0 < 2 ^ (shift - 1)) by (apply Z.pow_pos_nonneg; lia).
  pose proof (Z.div_mod z (2 ^ shift) ltac:(lia)) as Hdiv.
  pose proof (Z.mod_pos_bound z (2 ^ shift) ltac:(lia)) as Hmod.
  assert (Hq : z / 2 ^ shift < 2 ^ 53).
  { apply Z.div_lt_upper_bound; [lia |].
    rewrite <- Z.pow_add_r by lia.
    replace (shift + 53) with (Z.succ (Z.log2 z)) by lia.
    apply Z.log2_spec. lia. }
  set (P := 2 ^ shift) in *. set (h := 2 ^ (shift - 1)) in *.
  set (q := z / P) in *. set (r := z mod P) in *.
  set (up := (h <? r) || ((r =? h) && Z.odd q)).
  assert (Hup : if up then h <= r /\ (r = h -> Z.odd q = true)
                else r <= h /\ (r = h -> Z.odd q = false)).
  { subst up.
    destruct (Z.ltb_spec h r), (Z.eqb_spec r h), (Z.odd q);
      cbn [orb andb]; split; first [lia | intros; first [done | lia]]. }
  set (m := if up then q + 1 else q).
  assert (Hm : m * P / P = m) by (apply Z.div_mul; lia).
  destruct (Z.ltb_spec (m * P) (2 ^ 1024)) as [Hfin | Hinf].
  - split; [apply Z.mod_mul; lia |]. rewrite Hm.
    split; [subst m; destruct up; lia |]. split; [done |].
    subst m. destruct up.
    + split; [lia |]. intros Htie.
      rewrite Z.even_add, <- Z.negb_odd. cbn.
      destruct Hup as [_ ->]; [done | lia].
    + split; [lia |]. intros Htie.
      rewrite <- Z.negb_odd. destruct Hup as [_ ->]; [done | lia].
  - destruct (Z.lt_ge_cases z (2 ^ 1024)) as [Hlt | Hge]; [| lia].
    assert (Hshift : shift <= 971).
    { apply Z.log2_lt_pow2 in Hlt; lia. }
    assert (h <= 2 ^ 970) by (apply Z.pow_le_mono_r; lia).
    subst m. destruct up; lia.
Qed.

(** The arithmetic of the last binade: [K] is 2^53, [P] the unit in the last
    place, [h] its half. *)
Lemma last_binade (z P h K q r : Z) :
  P = 2 * h -> 0 < h -> z = P * q + r -> 0 <= r < P -> q < K ->
  K * P - h <= z -> q = K - 1 /\ h <= r.
Proof. intros -> Hh -> Hr Hq Hz. nia. Qed.

(** The value is infinity exactly from the middle between the largest
    double and 2^1024 on. *)
Lemma nearest_double_overflow (z : Z) :
  nearest_double z = Infinity <-> 2 ^ 1024 - 2 ^ 970 <= z.
Proof.
  split.
  - intros Hinf. destruct (Z.lt_ge_cases z (2 ^ 53)) as [Hlt | Hge].
    + by rewrite nearest_double_exact in Hinf.
    + pose proof (nearest_double_rounds z Hge) as H. by rewrite Hinf in H.
  - intros Hz. unfold nearest_double.
    assert (H1024 : 2 ^ 1024 = 2 ^ 53 * 2 ^ 971) by (by vm_compute).
    assert (H971 : 2 ^ 971 = 2 * 2 ^ 970) by (by vm_compute).
    assert (H1023 : 2 ^ 1023 = 2 ^ 52 * 2 ^ 971) by (by vm_compute).
    assert (H53 : 2 ^ 53 = 2 * 2 ^ 52) by (by vm_compute).
    assert (H970 : 0 < 2 ^ 970) by (by vm_compute).
    assert (H52 : 0 < 2 ^ 52) by (by vm_compute).
    assert (Hodd : Z.odd (2 ^ 53 - 1) = true) by (by vm_compute).
    assert (Hlog : 1023 <= Z.log2 z).
    { apply Z.log2_le_pow2; [| rewrite H1023]; nia. }
    destruct (Z.leb_spec (Z.log2 z - 52) 0) as [? | _]; [lia |].
    assert (Hshift : exists shift, shift = Z.log2 z - 52) by eauto.
    destruct Hshift as [shift Hshift]. rewrite <- Hshift.
    assert (Hpos : 0 < z) by nia.
    assert (HP : 0 < 2 ^ shift) by (apply Z.pow_pos_nonneg; lia).
    pose proof (Z.div_mod z (2 ^ shift) ltac:(lia)) as Hdiv.
    pose proof (Z.mod_pos_bound z (2 ^ shift) ltac:(lia)) as Hmod.
    pose proof (Z.log2_spec z Hpos) as [Hlow Hhigh].
    replace (Z.log2 z) with (52 + shift) in Hlow by lia.
    replace (Z.succ (Z.log2 z)) with (53 + shift) in Hhigh by lia.
    rewrite Z.pow_add_r in Hlow, Hhigh by lia.
    assert (Hq : z / 2 ^ shift < 2 ^ 53)
      by (apply Z.div_lt_upper_bound; lia).
    assert (Hq' : 2 ^ 52 <= z / 2 ^ shift)
      by (apply Z.div_le_lower_bound; lia).
    destruct (Z.lt_ge_cases z (2 ^ 1024)) as [Hlt | Hge].
    + assert (shift = 971) as ->.
      { apply Z.log2_lt_pow2 in Hlt; lia. }
      replace (971 - 1) with 970 by done.
      destruct (last_binade z (2 ^ 971) (2 ^ 970) (2 ^ 53) (z / 2 ^ 971)
                  (z mod 2 ^ 971) H971 H970 Hdiv Hmod Hq ltac:(lia))
        as [Hq1 Hr].
      rewrite Hq1, Hodd, andb_true_r.
      replace ((2 ^ 970 <? z mod 2 ^ 971) || (z mod 2 ^ 971 =? 2 ^ 970))
        with true.
      * replace (2 ^ 53 - 1 + 1) with (2 ^ 53) by lia.
        rewrite <- H1024. by rewrite Z.ltb_irrefl.
      * destruct (Z.ltb_spec (2 ^ 970) (z mod 2 ^ 971)); [done |].
        symmetry. apply Z.eqb_eq. lia.
    + assert (Hlow' : 2 ^ 1024 <= z / 2 ^ shift * 2 ^ shift).
      { assert (1024 <= 52 + shift).
        { apply Z.log2_le_pow2 in Hge; lia. }
        etrans; [apply (Z.pow_le_mono_r 2 1024 (52 + shift)); lia |].
        rewrite Z.pow_add_r by lia. nia. }
      destruct ((2 ^ (shift - 1) <? z mod 2 ^ shift)
                || ((z mod 2 ^ shift =? 2 ^ (shift - 1))
                    && Z.odd (z / 2 ^ shift))).
      * destruct (Z.ltb_spec ((z / 2 ^ shift + 1) * 2 ^ shift) (2 ^ 1024));
          [nia | done].
      * destruct (Z.ltb_spec (z / 2 ^ shift * 2 ^ shift) (2 ^ 1024));
          [lia | done].
Qed.

(** The size of a terminal is read as it is written. *)
Lemma parseInt_exact (digits : jsstring) :
  decimal digits < 2 ^ 53 -> parseInt digits = num (decimal digits).
Proof. intros Hz. unfold parseInt. by rewrite nearest_double_exact. Qed.

(** One more than 2^53 is half way between two doubles, and is read as
    2^53; the reset is made with the number [parseInt] returned. *)
Lemma large_size_is_rounded :
  parseInt (str "9007199254740993") = num 9007199254740992
  /\ (Main.detectProtocol (binary_data large_resize_message) open_driver).2
     = [logger Info activating_raw_text_handler;
        logger Debug
          (stream_reset (num 80) (num 9007199254740992) (num 0));
        setState playing None; buf_stop 0;
        getBuffer 1 (bufferTime open_driver) (num 0) None;
        reset (num 80) (num 9007199254740992) None;
        buf_pushText 1 (ascii_decode large_resize_message)].
Proof. split; by vm_compute. Qed.

(** ** The older revision, where it differs *)

(** The older revision has no resize frame: tag 0x72 is an unknown type. *)
Lemma old_handleStreamMessage_resize_unknown (d : driver) (time cols rows : Z)
    (rest : list byte) :
  Old.handleStreamMessage (resize_frame time cols rows ++ rest) d
  = (Normal tt, d, [logger Debug (unknown_frame_type (num 0x72))]).
Proof.
  unfold Old.handleStreamMessage. frame. rewrite !byte_is_head.
  change (byte.unsigned Byte.x72 =? 1) with false.
  change (byte.unsigned Byte.x72 =? 111) with false.
  change (byte.unsigned Byte.x72 =? 4) with false.
  cbv iota. by step.
Qed.

(** The older revision reads the field [state], not [status]. *)
Lemma old_handleJsonMessage_offline (d : driver) :
  Old.handleJsonMessage
    (text_data (Some (JObj [(str "state", JStr (str "offline"))]))) d
  = (Normal tt, with_clock None d, offline_calls)
  /\ Old.handleJsonMessage
       (text_data (Some (JObj [(str "status", JStr (str "offline"))]))) d
     = (Normal tt, d, []).
Proof.
  unfold Old.handleJsonMessage, Old.handleOfflineMessage.
  split; step; cbn [isArray prop]; step.
  all: repeat match goal with
              | |- context [find_prop ?name ?props] =>
                  let v := eval vm_compute in (find_prop name props) in
                  change (find_prop name props) with v
              end.
  all: cbn [is_defined orb]; step.
  - change (is_string (Some (JStr (str "offline"))) "offline") with true.
    by step.
  - by cbn.
Qed.

(** * Further properties *)

(** ** Relating the states before and after *)

Section Relates.
Variable R : driver -> list call -> driver -> Prop.
Hypothesis R_refl : forall d, R d [] d.
Hypothesis R_trans :
  forall d calls1 d1 calls2 d2,
    R d calls1 d1 -> R d1 calls2 d2 -> R d (calls1 ++ calls2) d2.

Lemma relates_bind {A B : Type} (m : M A) (f : A -> M B) :
  relates R m -> (forall a, relates R (f a)) -> relates R (m ≫= f).
Proof.
  intros Hm Hf d. specialize (Hm d). unfold mbind, M_bind.
  destruct (m d) as [[[a | e] d1] calls1]; cbn in *; [| done].
  specialize (Hf a d1). destruct (f a d1) as [[r d2] calls2]; cbn in *.
  eauto.
Qed.

Lemma relates_ret {A : Type} (a : A) : relates R (mret (M := M) a).
Proof. intros d. apply R_refl. Qed.

Lemma relates_throw {A : Type} (e : exn) : relates R (throw (A := A) e).
Proof. intros d. apply R_refl. Qed.

Lemma relates_read {A : Type} (var : driver -> A) : relates R (read var).
Proof. intros d. apply R_refl. Qed.

Lemma relates_object {A : Type} (var : driver -> option A) :
  relates R (object var).
Proof.
  unfold object. apply relates_bind; [apply relates_read |].
  intros [x |]; [apply relates_ret | apply relates_throw].
Qed.

Lemma relates_invoke (c : call) :
  (forall d, R d [c] d) -> relates R (invoke c).
Proof. intros Hc d. apply Hc. Qed.

Lemma relates_assign (set : driver -> driver) :
  (forall d, R d [] (set d)) -> relates R (assign set).
Proof. intros Hset d. apply Hset. Qed.

Lemma relates_run (evs : list event) :
  (forall ev, relates R (deliver ev)) ->
  forall d, R d (run evs d).2 (run evs d).1.
Proof.
  intros Hev. induction evs as [| ev evs IH]; intros d; cbn [run].
  - apply R_refl.
  - pose proof (Hev ev d) as H1.
    destruct (deliver ev d) as [[r d1] calls1]; cbn in H1.
    specialize (IH d1). destruct (run evs d1) as [d2 calls2]; cbn in *.
    eauto.
Qed.
End Relates.

(** The code is followed along its binds and branches; [known] closes the
    pieces proved before, [side] the conditions on a call or an
    assignment. *)
Ltac relate Hrefl Htrans known side :=
  repeat first
    [ known
    | apply (relates_ret _ Hrefl)
    | apply (relates_throw _ Hrefl)
    | apply (relates_read _ Hrefl)
    | apply (relates_object _ Hrefl Htrans)
    | apply relates_invoke; solve [side]
    | apply relates_assign; solve [side]
    | apply (relates_bind _ Htrans); [| intros ?]
    | match goal with
      | |- relates _ (if ?c then _ else _) => destruct c
      | |- relates _ (match ?x with _ => _ end) => destruct x
      end ].

Ltac unfold_handlers :=
  unfold deliver, handle, fire, Main.detectProtocol, Main.handleJsonMessage,
    Main.handleStreamMessage, Main.handleRawTextMessage,
    Main.handleOfflineMessage, Main.handleResetMessage, Main.onopen,
    Main.onclose, Main.play, Main.stop, Main.connect, Main.initBuffer,
    clock_setTime, new_buffer, new_WebSocket, setTimeout, clearTimeout,
    set_readyState, set_binaryType, set_onmessage, WebSocket_close,
    update_socket, buf_pushEvent_call, buf_pushText_call, prop,
    ArrayBuffer_of, getUint8, getUint16, getUint32, getFloat32,
    new_Uint8Array, bytes_at, skip.

(** ** The handlers of frames leave the connection alone *)

Lemma same_connection_refl (d : driver) : same_connection d [] d.
Proof. by repeat split. Qed.

Lemma same_connection_trans (d : driver) (calls1 : list call) (d1 : driver)
    (calls2 : list call) (d2 : driver) :
  same_connection d calls1 d1 -> same_connection d1 calls2 d2 ->
  same_connection d (calls1 ++ calls2) d2.
Proof.
  unfold same_connection. intros H1 H2.
  destruct_and!. split_and!; congruence.
Qed.

Ltac same_connection :=
  relate same_connection_refl same_connection_trans fail
    ltac:(intros ?; by repeat split).

Lemma handlers_same_connection (event : data) :
  relates same_connection (Main.handleJsonMessage event)
  /\ relates same_connection (Main.handleStreamMessage event)
  /\ relates same_connection (Main.handleRawTextMessage event).
Proof. split_and!; unfold_handlers; same_connection. Qed.

(** ** What the driver reports *)

Lemma reports_well_refl (d : driver) : reports_well d [] d.
Proof. by split. Qed.

Lemma reports_well_trans (d : driver) (calls1 : list call) (d1 : driver)
    (calls2 : list call) (d2 : driver) :
  reports_well d calls1 d1 -> reports_well d1 calls2 d2 ->
  reports_well d (calls1 ++ calls2) d2.
Proof.
  intros [Hf1 Hc1] [Hf2 Hc2]. split; [by apply Forall_app |].
  rewrite !filter_app, !length_app. congruence.
Qed.

Lemma handleResetMessage_reports_well (cols rows time init : value) :
  relates reports_well (Main.handleResetMessage cols rows time init).
Proof.
  intros d. rewrite handleResetMessage_run. unfold reset_calls.
  destruct (buf d); split; cbn; by repeat constructor.
Qed.

Ltac reports_well :=
  relate reports_well_refl reports_well_trans
    ltac:(apply handleResetMessage_reports_well)
    ltac:(intros ?; split; [by repeat constructor | done]).

Lemma deliver_reports_well (ev : event) : relates reports_well (deliver ev).
Proof.
  destruct ev;
    unfold deliver, handle, fire, Main.detectProtocol, Main.handleJsonMessage,
      Main.handleStreamMessage, Main.handleRawTextMessage,
      Main.handleOfflineMessage, Main.onopen, Main.onclose, Main.play,
      Main.stop, Main.connect, Main.initBuffer, clock_setTime, new_buffer,
      new_WebSocket, setTimeout, clearTimeout, set_readyState, set_binaryType,
      set_onmessage, WebSocket_close, update_socket, buf_pushEvent_call,
      buf_pushText_call, prop, ArrayBuffer_of, getUint8, getUint16, getUint32,
      getFloat32, new_Uint8Array, bytes_at, skip;
    reports_well.
Qed.

(** ** One Buffer at a time *)

Set Warnings "-clear-no-such-hyp".

Lemma unstopped_app (live : gset nat) (calls1 calls2 : list call) :
  unstopped live (calls1 ++ calls2) = unstopped (unstopped live calls1) calls2.
Proof. apply fold_left_app. Qed.

Lemma one_live_buffer_refl (d : driver) : one_live_buffer d [] d.
Proof. by intros live Hlive. Qed.

Lemma one_live_buffer_trans (d : driver) (calls1 : list call) (d1 : driver)
    (calls2 : list call) (d2 : driver) :
  one_live_buffer d calls1 d1 -> one_live_buffer d1 calls2 d2 ->
  one_live_buffer d (calls1 ++ calls2) d2.
Proof. intros H1 H2 live Hlive. rewrite unstopped_app. auto. Qed.

Lemma initBuffer_one_live_buffer (baseStreamTime : value) :
  relates one_live_buffer (Main.initBuffer baseStreamTime).
Proof.
  intros d live. unfold Main.initBuffer, new_buffer, own_buffer. step.
  destruct (buf d) as [b |]; step; cbn; set_solver.
Qed.

Ltac one_live_buffer :=
  relate one_live_buffer_refl one_live_buffer_trans
    ltac:(apply initBuffer_one_live_buffer)
    ltac:(intros ? live Hlive; first [exact Hlive | cbn; set_solver]).


(** ** A frame that cannot be handled *)

Lemma handleJsonMessage_run (event : data) (d : driver) :
  Main.handleJsonMessage event d
  = match event with
    | text_data (Some (JArr items)) =>
        match buf d with
        | Some b => (Normal tt, d, [buf_pushEvent b (JArr items)])
        | None => (Throw TypeError, d, [])
        end
    | text_data (Some (JObj props)) =>
        let field name := find_prop (str name) props in
        if is_defined (field "cols") || is_defined (field "width") then
          (Normal tt, reset_state d (field "time"),
           reset_calls d (nullish (field "cols") (field "width"))
             (nullish (field "rows") (field "height")) (field "time")
             (nullish (field "init") None))
        else if is_string (field "status") "offline" then
          (Normal tt, with_clock (Some NullClock) d, offline_calls)
        else (Normal tt, d, [])
    | text_data (Some JNull) => (Throw TypeError, d, [])
    | text_data (Some _) => (Normal tt, d, [])
    | _ => (Throw SyntaxError, d, [])
    end.
Proof.
  unfold Main.handleJsonMessage.
  destruct event as [[e |] | buffer]; step; try done.
  destruct e as [| b | n | t | items | props]; cbn [isArray prop]; step;
    try done.
  - apply buf_pushEvent_call_run.
  - cbn zeta.
    destruct (is_defined (find_prop (str "cols") props)
              || is_defined (find_prop (str "width") props)); step.
    + apply handleResetMessage_run.
    + destruct (is_string (find_prop (str "status") props) "offline");
        [apply handleOfflineMessage_run | done].
Qed.

Lemma handleRawTextMessage_run (event : data) (d : driver) :
  Main.handleRawTextMessage event d
  = match event, buf d with
    | binary_data bytes, Some b =>
        (Normal tt, d, [buf_pushText b (utfDecoder_decode d bytes)])
    | _, _ => (Throw TypeError, d, [])
    end.
Proof.
  unfold Main.handleRawTextMessage, ArrayBuffer_of.
  destruct event as [p | bytes]; step; [by destruct (buf d) |].
  apply buf_pushText_call_run.
Qed.





(** ** Connecting *)

Lemma connect_run (d : driver) :
  Main.connect d = (Normal tt, connected d, []).
Proof.
  unfold Main.connect, new_WebSocket, set_binaryType, set_onmessage. step.
  assert (Hlast : forall ws,
            (sockets d ++ [ws]) !! length (sockets d) = Some ws).
  { intros ws. by rewrite lookup_app_r, Nat.sub_diag by lia. }
  erewrite bind_update_socket by (cbn [sockets with_sockets]; apply Hlast).
  cbn [sockets with_sockets with_socket].
  assert (Hset : forall ws ws',
            <[length (sockets d) := ws']> (sockets d ++ [ws])
            = sockets d ++ [ws']).
  { intros ws ws'. by rewrite insert_app_r_alt, Nat.sub_diag by lia. }
  rewrite Hset.
  erewrite update_socket_run by (cbn [sockets with_sockets]; apply Hlast).
  cbn [sockets with_sockets]. by rewrite Hset.
Qed.

Lemma deliver_message (s : nat) (ws : WebSocket) (h : handler) (data : data)
    (d : driver) :
  sockets d !! s = Some ws -> readyState ws = OPEN -> onmessage ws = Some h ->
  deliver (message_event s data) d = handle h data d.
Proof.
  intros Hs Hopen Hh. unfold deliver. step. rewrite Hs.
  unfold is_state. by rewrite Hopen, Hh.
Qed.

Lemma onopen_run (d : driver) :
  Main.onopen d
  = (Normal tt,
     with_successfulConnectionTimeout (Some (timeouts d))
       (with_timers
          (<[timeouts d := (reset_reconnectAttempt, Int 1000)]> (timers d))
          (S (timeouts d))
          (with_buf (Some (buffers d)) (with_buffers (S (buffers d)) d))),
     [logger Info opened]
     ++ match buf d with
        | Some b => [buf_stop b]
        | None => []
        end
     ++ [getBuffer (buffers d) (bufferTime d) None (minFrameTime d)]).
Proof.
  unfold Main.onopen, Main.initBuffer, new_buffer, setTimeout. step.
  by destruct (buf d); step.
Qed.

Lemma onclose_unclean (code : Z) (d : driver) :
  stop d = false -> is_unclean code = true ->
  Main.onclose code d
  = (Normal tt,
     with_timers
       (<[timeouts d := (connect_callback,
                         reconnectDelay d (reconnectAttempt d))]>
          match successfulConnectionTimeout d with
          | Some t => delete t (timers d)
          | None => timers d
          end)
       (S (timeouts d))
       (with_reconnectAttempt (S (reconnectAttempt d)) d),
     [logger Info
        (unclean_close_reconnecting_in (reconnectDelay d (reconnectAttempt d)));
      setState loading None]).
Proof.
  intros Hstop Hcode. unfold Main.onclose. step. rewrite Hstop.
  unfold is_unclean in Hcode. apply negb_true_iff in Hcode.
  cbn [orb]. rewrite Hcode. step. unfold clearTimeout, setTimeout.
  by destruct (successfulConnectionTimeout d); step.
Qed.

Lemma deliver_close (s : nat) (ws : WebSocket) (code : Z) (d : driver) :
  sockets d !! s = Some ws -> readyState ws <> CLOSED ->
  deliver (close_event s code) d
  = Main.onclose code
      (with_sockets
         (<[s := mkWebSocket (ws_url ws) (binaryType ws) (onmessage ws)
                   CLOSED]> (sockets d)) d).
Proof.
  intros Hs Hopen. unfold deliver. step. rewrite Hs.
  replace (is_state CLOSED ws) with false
    by (unfold is_state; by destruct (readyState ws)).
  unfold set_readyState. by rewrite (bind_update_socket _ _ ws).
Qed.

Lemma deliver_timeout (id : nat) (callback : timer_callback) (delay : number)
    (d : driver) :
  timers d !! id = Some (callback, delay) ->
  deliver (timeout id) d
  = fire callback (with_timers (delete id (timers d)) (timeouts d) d).
Proof.
  intros Hid. unfold deliver, clearTimeout. step. rewrite Hid. by step.
Qed.

Lemma deliver_timeout_cleared (id : nat) (d : driver) :
  timers d !! id = None -> deliver (timeout id) d = (Normal tt, d, []).
Proof. intros Hid. unfold deliver. step. by rewrite Hid. Qed.

Lemma deliver_open (s : nat) (ws : WebSocket) (d : driver) :
  sockets d !! s = Some ws -> readyState ws = CONNECTING ->
  deliver (open_event s) d
  = Main.onopen
      (with_sockets
         (<[s := mkWebSocket (ws_url ws) (binaryType ws) (onmessage ws)
                   OPEN]> (sockets d)) d).
Proof.
  intros Hs Hopen. unfold deliver. step. rewrite Hs.
  unfold is_state. rewrite Hopen.
  unfold set_readyState. by rewrite (bind_update_socket _ _ ws).
Qed.

(** X2.  After an unclean close of a socket that was not closed yet, once the
    timer of the close handler has run, the driver is connecting again: the
    two calls are the log line and [setState('loading')], a new socket is the
    driver's, the attempt count is one more, the stability timer is cleared,
    and the Buffer and the Clock are as they were. *)
Theorem unclean_close_reconnects (d : driver) (s : nat) (ws : WebSocket)
    (code : Z) :
  sockets d !! s = Some ws -> readyState ws <> CLOSED -> stop d = false ->
  is_unclean code = true ->
  let delay := reconnectDelay d (reconnectAttempt d) in
  let after := run [close_event s code; timeout (timeouts d)] d in
  after.2
  = [logger Info (unclean_close_reconnecting_in delay); setState loading None]
  /\ socket after.1 = Some (length (sockets d))
  /\ sockets after.1
     = <[s := mkWebSocket (ws_url ws) (binaryType ws) (onmessage ws) CLOSED]>
         (sockets d)
       ++ [fresh_socket d]
  /\ reconnectAttempt after.1 = S (reconnectAttempt d)
  /\ timers after.1
     = delete (timeouts d)
         match successfulConnectionTimeout d with
         | Some t => delete t (timers d)
         | None => timers d
         end
  /\ buf after.1 = buf d /\ clock after.1 = clock d.
Proof.
  intros Hs Hopen Hstop Hcode delay after. subst after.
  cbn [run]. erewrite deliver_close by done.
  rewrite onclose_unclean by done. cbn [fst snd].
  erewrite deliver_timeout by (step; apply lookup_insert_eq).
  cbn [fire]. rewrite connect_run. step.
  unfold connected, fresh_socket. step.
  rewrite length_insert, delete_insert_eq. by split_and!.
Qed.

(** The theorem on the open driver, whose socket closes with code 1006: the
    reconnect is set to 500 and makes the socket 1. *)
Lemma unclean_close_reconnects_witness :
  (run [close_event 0 1006; timeout (timeouts open_driver)] open_driver).2
  = [logger Info (unclean_close_reconnecting_in (Int 500));
     setState loading None]
  /\ socket
       (run [close_event 0 1006; timeout (timeouts open_driver)]
          open_driver).1
     = Some 1%nat.
Proof.
  destruct (unclean_close_reconnects open_driver 0
              (socket_of detectProtocol_handler OPEN) 1006)
    as (Hcalls & Hsocket & _); [by vm_compute .. |].
  rewrite Hcalls, Hsocket. by vm_compute.
Defined.

(** X3.  The stability timer.  [onopen] sets it to one second.  When the
    socket closes uncleanly before it has run, it is cleared, running it does
    nothing, and the attempt count goes up by one.  When it has run before
    the close, the count starts again: the next delay is that of attempt 0
    and the count is 1. *)
Theorem stability_timer_resets_attempts (d : driver) (s : nat)
    (ws : WebSocket) (code : Z) :
  sockets d !! s = Some ws -> readyState ws = CONNECTING -> stop d = false ->
  is_unclean code = true ->
  let t := timeouts d in
  let early := run [open_event s; close_event s code; timeout t] d in
  let late := run [open_event s; timeout t; close_event s code] d in
  timers (run [open_event s] d).1 !! t = Some (reset_reconnectAttempt, Int 1000)
  /\ reconnectAttempt early.1 = S (reconnectAttempt d)
  /\ timers early.1 !! S t
     = Some (connect_callback, reconnectDelay d (reconnectAttempt d))
  /\ reconnectAttempt late.1 = 1%nat
  /\ timers late.1 !! S t = Some (connect_callback, reconnectDelay d 0).
Proof.
  intros Hs Hconn Hstop Hcode t early late. subst early late t.
  assert (Hlt : (s < length (sockets d))%nat) by by eapply lookup_lt_Some.
  cbn [run]. erewrite deliver_open by done. rewrite onopen_run. cbn [fst snd].
  split_and!.
  - step. apply lookup_insert_eq.
  - erewrite deliver_close
      by (step; first [by apply list_lookup_insert_eq | done]).
    rewrite onclose_unclean by done. cbn [fst snd].
    rewrite deliver_timeout_cleared; [by step |].
    step. rewrite lookup_insert_ne by lia. apply lookup_delete_eq.
  - erewrite deliver_close
      by (step; first [by apply list_lookup_insert_eq | done]).
    rewrite onclose_unclean by done. cbn [fst snd].
    rewrite deliver_timeout_cleared.
    + step. apply lookup_insert_eq.
    + step. rewrite lookup_insert_ne by lia. apply lookup_delete_eq.
  - erewrite deliver_timeout by (step; apply lookup_insert_eq).
    cbn [fire]. step.
    erewrite deliver_close
      by (step; first [by apply list_lookup_insert_eq | done]).
    rewrite onclose_unclean by done. by step.
  - erewrite deliver_timeout by (step; apply lookup_insert_eq).
    cbn [fire]. step.
    erewrite deliver_close
      by (step; first [by apply list_lookup_insert_eq | done]).
    rewrite onclose_unclean by done. step. apply lookup_insert_eq.
Qed.

(** The theorem on the driver after [play]: the socket stays open for a
    second, then closes with code 1006. *)
Lemma stability_timer_resets_attempts_witness :
  reconnectAttempt
    (run [open_event 0; timeout (timeouts connecting_driver);
          close_event 0 1006] connecting_driver).1
  = 1%nat.
Proof.
  destruct (stability_timer_resets_attempts connecting_driver 0
              (socket_of detectProtocol_handler CONNECTING) 1006)
    as (_ & _ & _ & Hlate & _); [by vm_compute .. |].
  exact Hlate.
Defined.

(** ** Over an execution *)

(** X4.  Over any execution from any state, every call to [setState] is one
    of [setState('playing')], [setState('offline')], [setState('loading')]
    and [setState('stopped', { reason: 'ended' })], and [setState('playing')]
    was called as many times as [reset]. *)
Theorem driver_reports (evs : list event) (d : driver) :
  let calls := (run evs d).2 in
  Forall (fun c => reported c = true) calls
  /\ length (filter (fun c => is_playing c = true) calls)
     = length (filter (fun c => is_reset c = true) calls).
Proof.
  exact (relates_run reports_well reports_well_refl reports_well_trans evs
           deliver_reports_well d).
Qed.


Lemma handle_same_connection (h : handler) (msg : data) :
  h <> detectProtocol_handler -> relates same_connection (handle h msg).
Proof.
  pose proof (handlers_same_connection msg) as (? & ? & ?).
  by destruct h.
Qed.

(** X6.  Once a socket is bound to one of the three handlers of frames, its
    messages, whatever they are, change nothing of the connection: the socket
    and its handler, the timers, the count of attempts and the stop flag stay
    as they are. *)
Theorem protocol_is_fixed (d : driver) (s : nat) (ws : WebSocket)
    (msgs : list data) :
  sockets d !! s = Some ws -> onmessage ws <> Some detectProtocol_handler ->
  same_connection d (run (message_event s <$> msgs) d).2
    (run (message_event s <$> msgs) d).1.
Proof.
  intros Hs Hh. revert d Hs.
  induction msgs as [| msg msgs IH]; intros d Hs;
    [apply same_connection_refl |].
  cbn [fmap list_fmap run].
  assert (H1 : same_connection d (deliver (message_event s msg) d).2
                 (deliver (message_event s msg) d).1.2).
  { unfold deliver. step. rewrite Hs.
    destruct (is_state OPEN ws); [| apply same_connection_refl].
    destruct (onmessage ws) as [h |] eqn:Hh0; [| apply same_connection_refl].
    apply handle_same_connection. congruence. }
  destruct (deliver (message_event s msg) d) as [[r d1] calls1].
  cbn [fst snd] in H1.
  assert (Hs1 : sockets d1 !! s = Some ws).
  { destruct H1 as (_ & -> & _). done. }
  specialize (IH d1 Hs1). fold (@fmap list _ _ _ (message_event s) msgs).
  destruct (run (message_event s <$> msgs) d1) as [d2 calls2].
  cbn [fst snd] in *. by eapply same_connection_trans.
Qed.

(** The theorem on a JSON stream that goes on with an output event and the
    end of the stream. *)
Lemma protocol_is_fixed_witness :
  same_connection json_driver
    (run (message_event 0 <$> [output_message; offline_message])
       json_driver).2
    (run (message_event 0 <$> [output_message; offline_message])
       json_driver).1.
Proof.
  apply (protocol_is_fixed json_driver 0
           (socket_of handleJsonMessage_handler OPEN));
    by vm_compute.
Defined.

(** ** The first message *)

(** X7.  An ALiS header of version 1 without compression, received on the
    driver's open socket, is used up by the detection: two lines are logged,
    the socket is bound to the handler of ALiS frames, whatever follows the
    six bytes is not read, and the handler gets the next message. *)
Theorem ALiS_v1_accepted (d : driver) (s : nat) (ws : WebSocket)
    (arr : list byte) (later : data) :
  socket d = Some s -> sockets d !! s = Some ws -> readyState ws = OPEN ->
  is_ALiS arr = true -> byte_is arr 4 1 = true -> byte_is arr 5 0 = true ->
  let d' :=
    with_sockets
      (<[s := bound_to handleStreamMessage_handler ws]> (sockets d)) d in
  Main.detectProtocol (binary_data arr) d
  = (Normal tt, d',
     [logger Info activating_ALiS_v1_handler;
      logger Debug text_compression_none])
  /\ deliver (message_event s later) d' = Main.handleStreamMessage later d'.
Proof.
  intros Hsock Hws Hopen Hmagic Hversion Hcompression d'. subst d'.
  assert (Hlt : (s < length (sockets d))%nat) by by eapply lookup_lt_Some.
  split.
  - unfold Main.detectProtocol. rewrite Hmagic, Hversion, Hcompression.
    step. rewrite (bind_object _ s) by done.
    unfold set_onmessage. by erewrite update_socket_run by done.
  - by rewrite (deliver_message s
                    (bound_to handleStreamMessage_handler ws)
                    handleStreamMessage_handler)
      by (try done; step; by apply list_lookup_insert_eq).
Qed.

(** The theorem on the header of version 1 without compression. *)
Lemma ALiS_v1_accepted_witness :
  (Main.detectProtocol (binary_data (ALiS_header Byte.x01 Byte.x00))
     open_driver).2
  = [logger Info activating_ALiS_v1_handler;
     logger Debug text_compression_none].
Proof.
  destruct (ALiS_v1_accepted open_driver 0
              (socket_of detectProtocol_handler OPEN)
              (ALiS_header Byte.x01 Byte.x00) (binary_data offline_frame))
    as [Hrun _]; [by vm_compute .. |].
  by rewrite Hrun.
Defined.

(** X8.  The first message on the driver's socket binds the socket to the
    handler of its protocol before it is handled: the socket is bound as well
    when the handling of that message fails. *)
Theorem first_message_binds (d : driver) (s : nat) (ws : WebSocket)
    (event : data) :
  socket d = Some s -> sockets d !! s = Some ws -> supported event = true ->
  let d' := (Main.detectProtocol event d).1.2 in
  socket d' = Some s
  /\ onmessage <$> sockets d' !! s = Some (Some (handler_for event)).
Proof.
  intros Hsock Hws Hsupported d'. subst d'.
  assert (Hlt : (s < length (sockets d))%nat) by by eapply lookup_lt_Some.
  pose proof (handlers_same_connection event) as (Hjson & _ & Hraw).
  unfold Main.detectProtocol, handler_for.
  destruct event as [p | arr].
  - step. rewrite (bind_object _ s) by done.
    unfold set_onmessage. erewrite bind_update_socket by done.
    unfold after. cbn [fst snd].
    match goal with
    | |- context [Main.handleJsonMessage ?e ?d1] =>
        destruct (Hjson d1) as (-> & -> & _)
    end.
    step. by rewrite list_lookup_insert_eq.
  - cbn [supported] in Hsupported. destruct (is_ALiS arr).
    + cbn [negb orb] in Hsupported. rewrite Hsupported. step.
      unfold set_onmessage, WebSocket_close.
      destruct (byte_is arr 5 0); step.
      * rewrite (bind_object _ s) by done.
        erewrite update_socket_run by done. step.
        by rewrite list_lookup_insert_eq.
      * rewrite (bind_object _ s) by done.
        erewrite bind_update_socket by done.
        rewrite (bind_object _ s) by done.
        erewrite update_socket_run
          by (step; by apply list_lookup_insert_eq).
        step. by rewrite list_lookup_insert_eq by by rewrite length_insert.
    + step.
      assert (Hrest : forall d1 : driver,
        socket d1 = Some s -> sockets d1 = sockets d ->
        let r := (s0 ← object socket;
                  set_onmessage handleRawTextMessage_handler s0;;
                  Main.handleRawTextMessage (binary_data arr)) d1 in
        socket r.1.2 = Some s
        /\ onmessage <$> sockets r.1.2 !! s
           = Some (Some handleRawTextMessage_handler)).
      { intros d1 Hsock1 Hsockets1. cbn zeta.
        rewrite (bind_object _ s) by done.
        unfold set_onmessage.
        erewrite bind_update_socket by (by rewrite Hsockets1).
        unfold after. cbn [fst snd].
        match goal with
        | |- context [Main.handleRawTextMessage ?e ?d2] =>
            destruct (Hraw d2) as (-> & -> & _)
        end.
        step. rewrite Hsockets1. by rewrite list_lookup_insert_eq. }
      destruct (match Main.sizeFromResizeSeq (utfDecoder_decode d arr) with
                | Some size => Some size
                | None =>
                    Main.sizeFromScriptStartMessage (utfDecoder_decode d arr)
                end) as [[cols rows] |].
      * erewrite bind_run by apply handleResetMessage_run.
        unfold after. cbn [fst snd]. by apply Hrest.
      * step. unfold after. cbn [fst snd]. by apply Hrest.
Qed.

(** The theorem on a first text message that is not JSON. *)
Lemma first_message_binds_witness :
  onmessage
  <$> sockets (Main.detectProtocol (text_data None) open_driver).1.2 !! 0%nat
  = Some (Some handleJsonMessage_handler).
Proof.
  destruct (first_message_binds open_driver 0
              (socket_of detectProtocol_handler OPEN) (text_data None))
    as [_ Hbound]; [by vm_compute .. |].
  exact Hbound.
Defined.

(** ** A raw text stream *)

(** X9.  The messages of a raw text stream are decoded one by one and pushed
    to the Buffer in the order they came; nothing else is called, and the
    state stays as it is. *)
Theorem raw_text_in_order (d : driver) (s : nat) (ws : WebSocket) (b : nat)
    (chunks : list (list byte)) :
  sockets d !! s = Some ws -> readyState ws = OPEN ->
  onmessage ws = Some handleRawTextMessage_handler -> buf d = Some b ->
  run ((fun chunk => message_event s (binary_data chunk)) <$> chunks) d
  = (d, (fun chunk => buf_pushText b (utfDecoder_decode d chunk)) <$> chunks).
Proof.
  intros Hs Hopen Hh Hb.
  induction chunks as [| chunk chunks IH]; [done |].
  cbn [fmap list_fmap run].
  erewrite deliver_message by done. cbn [handle].
  rewrite handleRawTextMessage_run, Hb.
  fold (@fmap list _ _ _
          (fun chunk => message_event s (binary_data chunk)) chunks).
  by rewrite IH.
Qed.

(** The theorem on two messages of one character. *)
Lemma raw_text_in_order_witness :
  run [message_event 0 (binary_data [Byte.x24]);
       message_event 0 (binary_data [Byte.x20])] raw_driver
  = (raw_driver, [buf_pushText 1 [36%N]; buf_pushText 1 [32%N]]).
Proof.
  apply (raw_text_in_order raw_driver 0
           (socket_of handleRawTextMessage_handler OPEN) 1
           [[Byte.x24]; [Byte.x20]]);
    by vm_compute.
Defined.

(** ** Stopping *)

(** X10.  [stop] never throws; a second call changes nothing of the state,
    and stops the Buffer once more. *)
Theorem stop_twice (d : driver) :
  let once := Main.stop d in
  let twice := Main.stop once.1.2 in
  once.1.1 = Normal tt /\ twice.1.1 = Normal tt /\ twice.1.2 = once.1.2
  /\ twice.2 = match buf d with
               | Some b => [buf_stop b]
               | None => []
               end.
Proof.
  cbn zeta. unfold Main.stop, WebSocket_close, update_socket.
  destruct (buf d) as [b |] eqn:Hb, (socket d) as [s |] eqn:Hsock.
  all: try (destruct (sockets d !! s) as [ws |] eqn:Hs;
            [assert (Hlt : (s < length (sockets d))%nat)
               by by eapply lookup_lt_Some |]).
  all: repeat (step; rewrite ?Hb, ?Hsock, ?Hs;
               rewrite ?list_lookup_insert_eq by done).
  all: rewrite ?list_insert_insert_eq; try done.
  all: by destruct (readyState ws).
Qed.

(** ** Failure after failure *)

Lemma run_cons (ev : event) (evs : list event) (d : driver) :
  run (ev :: evs) d
  = ((run evs (deliver ev d).1.2).1,
     (deliver ev d).2 ++ (run evs (deliver ev d).1.2).2).
Proof.
  cbn [run]. destruct (deliver ev d) as [[r d1] calls1]. cbn [fst snd].
  by destruct (run evs d1).
Qed.

Lemma failure_cycle (d : driver) (s : nat) (ws : WebSocket) (code : Z) :
  sockets d !! s = Some ws -> readyState ws <> CLOSED -> stop d = false ->
  is_unclean code = true ->
  exists d1 : driver,
    (deliver (timeout (timeouts d)) (deliver (close_event s code) d).1.2).1.2
    = d1
    /\ (deliver (close_event s code) d).2
       = [logger Info
            (unclean_close_reconnecting_in
               (reconnectDelay d (reconnectAttempt d)));
          setState loading None]
    /\ (deliver (timeout (timeouts d)) (deliver (close_event s code) d).1.2).2
       = []
    /\ sockets d1 !! length (sockets d) = Some (fresh_socket d)
    /\ length (sockets d1) = S (length (sockets d))
    /\ timeouts d1 = S (timeouts d) /\ stop d1 = false
    /\ reconnectDelay d1 = reconnectDelay d
    /\ reconnectAttempt d1 = S (reconnectAttempt d).
Proof.
  intros Hs Hopen Hstop Hcode. eexists. split; [reflexivity |].
  erewrite deliver_close by done.
  rewrite onclose_unclean by done. cbn [fst snd].
  erewrite deliver_timeout by (step; apply lookup_insert_eq).
  cbn [fire]. rewrite connect_run. step.
  unfold connected, fresh_socket. step.
  split_and!; try done.
  - by rewrite lookup_app_r, length_insert, Nat.sub_diag
      by (rewrite length_insert; lia).
  - rewrite length_app, length_insert. cbn [length]. lia.
Qed.

(** X11.  The driver never gives up: when connection after connection fails,
    each close sets the next attempt, after the delay [reconnectDelay] gives
    for the count of failures so far, and all that is reported is the state
    [loading]. *)
Theorem reconnects_forever (n : nat) (d : driver) (s : nat) (ws : WebSocket)
    (code : Z) :
  sockets d !! s = Some ws -> readyState ws <> CLOSED -> stop d = false ->
  is_unclean code = true ->
  let failed := run (failing n s (length (sockets d)) (timeouts d) code) d in
  failed.2 = retries (reconnectDelay d) (reconnectAttempt d) n
  /\ reconnectAttempt failed.1 = (reconnectAttempt d + n)%nat.
Proof.
  intros Hs Hopen Hstop Hcode. cbn zeta. revert d s ws Hs Hopen Hstop.
  induction n as [| n IH]; intros d s ws Hs Hopen Hstop.
  - cbn [failing run retries fst snd]. split; [done | lia].
  - cbn [failing retries]. rewrite !run_cons. cbn [fst snd].
    destruct (failure_cycle d s ws code Hs Hopen Hstop Hcode)
      as (d1 & -> & -> & -> & Hs1 & Hlen & Ht & Hstop1 & Hdelay & Hattempt).
    rewrite <- Hlen, <- Ht.
    destruct (IH d1 (length (sockets d)) (fresh_socket d) Hs1) as [-> ->];
      [done | done |].
    rewrite Hdelay, Hattempt. split; [done | lia].
Qed.

(** The theorem on three failures from the open driver and the default
    delays. *)
Lemma reconnects_forever_witness :
  (run (failing 3 0 (length (sockets open_driver)) (timeouts open_driver)
          1006) open_driver).2
  = [logger Info (unclean_close_reconnecting_in (Int 500));
     setState loading None;
     logger Info (unclean_close_reconnecting_in (Int 1000));
     setState loading None;
     logger Info (unclean_close_reconnecting_in (Int 2000));
     setState loading None].
Proof.
  destruct (reconnects_forever 3 open_driver 0
              (socket_of detectProtocol_handler OPEN) 1006)
    as [Hcalls _]; [by vm_compute .. |].
  rewrite Hcalls. by vm_compute.
Defined.

(** ** The two protocols *)

(** X12.  The frames of an ALiS stream are handled as the JSON messages that
    say the same: a reset frame as the object with [cols], [rows], [time] and,
    when the frame has initial text, [init]; an output and a resize frame as
    the event arrays; the offline frame as the object with the status
    [offline]. *)
Theorem protocols_agree (d : driver) (cols rows time : Z)
    (text rest : list byte) :
  0 <= cols < 2 ^ 16 -> 0 <= rows < 2 ^ 16 -> 0 <= time < 2 ^ 32 ->
  Z.of_nat (length text) < 2 ^ 32 ->
  Main.handleStreamMessage
    (binary_data (reset_frame cols rows time text ++ rest)) d
  = Main.handleJsonMessage
      (json_reset cols rows time
         match text with
         | [] => None
         | _ => Some (utfDecoder_decode d text)
         end) d
  /\ Main.handleStreamMessage (binary_data (output_frame time text ++ rest)) d
     = Main.handleJsonMessage
         (json_event time "o" (utfDecoder_decode d text)) d
  /\ Main.handleStreamMessage
       (binary_data (resize_frame time cols rows ++ rest)) d
     = Main.handleJsonMessage
         (json_event time "r"
            (str (pretty cols) ++ str "x" ++ str (pretty rows))) d
  /\ Main.handleStreamMessage (binary_data (offline_frame ++ rest)) d
     = Main.handleJsonMessage offline_message d.
Proof.
  intros Hcols Hrows Htime Hlen.
  assert (Htake :
    take (Z.to_nat (Z.of_nat (length text))) (text ++ rest) = text)
    by (rewrite Nat2Z.id; apply take_app_length).
  rewrite !handleJsonMessage_run.
  unfold json_reset, json_event, offline_message. cbn zeta.
  split_and!.
  - stream_handler. change (byte.unsigned Byte.x01 =? 1) with true. cbv iota.
    fields. rewrite !le_combine_2, !le_combine_4 by lia.
    destruct (Z.ltb_spec 0 (Z.of_nat (length text))) as [Hpos | Hzero].
    + rewrite bind_assoc, bind_bytes_at.
      rewrite decide_True by (cbn [length]; rewrite length_app; lia).
      cbn [drop]. rewrite drop_0, Htake. step.
      destruct text; [cbn in Hpos; lia |].
      rewrite handleResetMessage_run. by vm_compute.
    + destruct text; [| cbn [length] in Hzero; lia].
      step. rewrite handleResetMessage_run. by vm_compute.
  - stream_handler. change (byte.unsigned Byte.x6f =? 1) with false.
    change (byte.unsigned Byte.x6f =? 111) with true. cbv iota.
    fields. rewrite !le_combine_4 by lia.
    rewrite bind_bytes_at.
    rewrite decide_True by (cbn [length]; rewrite length_app; lia).
    cbn [drop]. rewrite drop_0, Htake. step. apply buf_pushEvent_call_run.
  - stream_handler. change (byte.unsigned Byte.x72 =? 1) with false.
    change (byte.unsigned Byte.x72 =? 111) with false.
    change (byte.unsigned Byte.x72 =? 114) with true. cbv iota.
    fields. rewrite !le_combine_2, !le_combine_4 by lia.
    apply buf_pushEvent_call_run.
  - stream_handler. change (byte.unsigned Byte.x04 =? 1) with false.
    change (byte.unsigned Byte.x04 =? 111) with false.
    change (byte.unsigned Byte.x04 =? 114) with false.
    change (byte.unsigned Byte.x04 =? 4) with true. cbv iota.
    rewrite handleOfflineMessage_run. by vm_compute.
Qed.

(** The theorem on the reset to 80 columns and 24 rows at time 0. *)
Lemma protocols_agree_witness :
  Main.handleStreamMessage (binary_data (reset_frame 80 24 0 [] ++ []))
    open_driver
  = Main.handleJsonMessage (json_reset 80 24 0 None) open_driver.
Proof.
  destruct (protocols_agree open_driver 80 24 0 [] []) as [Hreset _];
    [cbn; lia .. |].
  exact Hreset.
Defined.

(** ** The older revision and a raw stream *)

(** X13.  The older revision looks for no size in the first frame of a raw
    stream: whatever the frame holds, it is pushed as text and no reset is
    made. *)
Theorem old_raw_stream_not_sniffed (d : driver) (s : nat) (ws : WebSocket)
    (b : nat) (arr : list byte) :
  socket d = Some s -> sockets d !! s = Some ws -> buf d = Some b ->
  is_ALiS arr = false ->
  Old.detectProtocol (binary_data arr) d
  = (Normal tt,
     with_sockets
       (<[s := bound_to handleRawTextMessage_handler ws]> (sockets d)) d,
     [logger Info activating_binary_handler;
      buf_pushText b (utfDecoder_decode d arr)]).
Proof.
  intros Hsock Hws Hb Hmagic. unfold Old.detectProtocol. rewrite Hmagic.
  step. rewrite (bind_object _ s) by done.
  unfold set_onmessage. erewrite bind_update_socket by done.
  unfold Old.handleBinaryMessage, ArrayBuffer_of. step.
  rewrite buf_pushText_call_run. step. by rewrite Hb.
Qed.

(** The theorem on a first frame that carries a resize sequence. *)
Lemma old_raw_stream_not_sniffed_witness :
  (Old.detectProtocol (binary_data resize_message) open_driver).2
  = [logger Info activating_binary_handler;
     buf_pushText 0 (ascii_decode resize_message)].
Proof.
  rewrite (old_raw_stream_not_sniffed open_driver 0
             (socket_of detectProtocol_handler OPEN) 0 resize_message);
    by vm_compute.
Defined.

(** ** The Clock and the Buffer are there when they are used *)

Lemma stays_defined_refl {A : Type} (var : driver -> option A) (d : driver) :
  stays_defined var d [] d.
Proof. by intros H. Qed.

Lemma stays_defined_trans {A : Type} (var : driver -> option A) (d : driver)
    (calls1 : list call) (d1 : driver) (calls2 : list call) (d2 : driver) :
  stays_defined var d calls1 d1 -> stays_defined var d1 calls2 d2 ->
  stays_defined var d (calls1 ++ calls2) d2.
Proof. unfold stays_defined. auto. Qed.

Ltac stays_defined var :=
  relate (stays_defined_refl var) (stays_defined_trans var) fail
    ltac:(intros ? H; first [exact H | by eexists]).

Lemma deliver_clock_defined (ev : event) :
  relates (stays_defined clock) (deliver ev).
Proof. destruct ev; unfold_handlers; stays_defined clock. Qed.

Lemma deliver_buf_defined (ev : event) :
  relates (stays_defined buf) (deliver ev).
Proof. destruct ev; unfold_handlers; stays_defined buf. Qed.

(** X14.  In the main revision the variable [clock] always holds an object:
    through every execution of a driver made by [websocket], [getCurrentTime]
    returns and calls nothing, and the Buffer can set the time. *)
Theorem clock_always_there (evs : list event) (url : jsstring)
    (bufferTime : number) (reconnectDelay : nat -> number)
    (minFrameTime : value) (decode : list byte -> jsstring) (t : number) :
  let d :=
    (run evs (Main.websocket url bufferTime reconnectDelay minFrameTime
                decode)).1 in
  (exists now, Main.getCurrentTime d = (Normal now, d, []))
  /\ (deliver (setTime_event t) d).1.1 = Normal tt.
Proof.
  cbn zeta.
  destruct (relates_run (stays_defined clock) (stays_defined_refl clock)
              (stays_defined_trans clock) evs deliver_clock_defined
              (Main.websocket url bufferTime reconnectDelay minFrameTime
                 decode)) as [c Hc]; [by eexists |].
  split.
  - eexists. unfold Main.getCurrentTime. by rewrite (bind_object _ c).
  - unfold deliver, clock_setTime. by rewrite (bind_object _ c).
Qed.

Lemma none_opened_refl (d : driver) : none_opened d [] d.
Proof. intros s ws Hs Hopen. eauto. Qed.

Lemma none_opened_trans (d : driver) (calls1 : list call) (d1 : driver)
    (calls2 : list call) (d2 : driver) :
  none_opened d calls1 d1 -> none_opened d1 calls2 d2 ->
  none_opened d (calls1 ++ calls2) d2.
Proof.
  intros H1 H2 s ws2 Hs2 Hopen2.
  destruct (H2 s ws2 Hs2 Hopen2) as (ws1 & Hs1 & Hopen1). eauto.
Qed.

Lemma update_socket_none_opened (f : WebSocket -> WebSocket) (s : nat) :
  (forall ws, readyState (f ws) = OPEN -> readyState ws = OPEN) ->
  relates none_opened (update_socket f s).
Proof.
  intros Hf d. unfold update_socket. step.
  destruct (sockets d !! s) as [ws |] eqn:Hs; step;
    [| apply none_opened_refl].
  intros s' ws' Hs' Hopen'. cbn [sockets with_sockets] in Hs'.
  destruct (decide (s' = s)) as [-> | Hne].
  - rewrite list_lookup_insert_eq in Hs' by by eapply lookup_lt_Some.
    injection Hs' as <-. eauto.
  - rewrite list_lookup_insert_ne in Hs' by done. eauto.
Qed.

Lemma new_WebSocket_none_opened (u : jsstring) :
  relates none_opened (new_WebSocket u).
Proof.
  intros d. unfold new_WebSocket. step. intros s ws' Hs' Hopen'.
  cbn [sockets with_sockets] in Hs'.
  apply lookup_app_Some in Hs' as [Hs' | [_ Hs']]; [by eauto |].
  apply list_lookup_singleton_Some in Hs' as [_ <-]. done.
Qed.

Ltac none_opened :=
  relate none_opened_refl none_opened_trans
    ltac:(first
            [ apply new_WebSocket_none_opened
            | apply update_socket_none_opened; intros ws; cbn;
              by destruct (readyState ws) ])
    ltac:(intros ? ? ? Hs Hopen; by eauto).

Lemma deliver_none_opened (ev : event) :
  (forall s, ev <> open_event s) -> relates none_opened (deliver ev).
Proof.
  intros Hev. destruct ev as [s | | | | | |]; [by destruct (Hev s) | ..].
  all: unfold deliver, handle, fire, Main.detectProtocol,
         Main.handleJsonMessage, Main.handleStreamMessage,
         Main.handleRawTextMessage, Main.handleOfflineMessage,
         Main.handleResetMessage, Main.onclose, Main.play, Main.stop,
         Main.connect, Main.initBuffer, clock_setTime, new_buffer, setTimeout,
         clearTimeout, buf_pushEvent_call, buf_pushText_call, prop,
         ArrayBuffer_of, getUint8, getUint16, getUint32, getFloat32,
         new_Uint8Array, bytes_at, skip.
  all: none_opened.
Qed.

(** X15.  While a socket is open there is a Buffer: [onopen] makes one before
    any message can come, and the variable [buf] is never emptied.  So no
    handler of messages fails for want of a Buffer. *)
Theorem buffer_ready_when_open (evs : list event) (d : driver) :
  buffer_ready d -> buffer_ready (run evs d).1.
Proof.
  revert d. induction evs as [| ev evs IH]; intros d Hd; [done |].
  rewrite run_cons. cbn [fst]. apply IH.
  pose proof (deliver_buf_defined ev d) as Hbuf.
  assert (Hcase : (exists s, ev = open_event s)
                  \/ forall s, ev <> open_event s)
    by (destruct ev; [left; by eauto | right; done ..]).
  destruct Hcase as [[s ->] | Hev].
  - intros s' ws' Hs' Hopen'. revert Hs' Hbuf. unfold deliver. step.
    destruct (sockets d !! s) as [ws |] eqn:Hs; [| by eauto].
    destruct (is_state CONNECTING ws); [| by eauto].
    unfold set_readyState. erewrite bind_update_socket by done.
    rewrite onopen_run. by step.
  - intros s' ws' Hs' Hopen'.
    destruct (deliver_none_opened ev Hev d s' ws' Hs' Hopen')
      as (ws & Hs & Hopen).
    apply Hbuf. eauto.
Qed.

(** The theorem on the execution that makes the open driver. *)
Lemma buffer_ready_when_open_witness : buffer_ready open_driver.
Proof.
  apply (buffer_ready_when_open [play_call; open_event 0] new_driver).
  intros s ws Hs. by vm_compute in Hs.
Defined.
